(** * Allocation, affinity and reconciliation engine of the group-relay bot

    A shallow embedding of the queue allocator of [db.py] and of the
    room resolver, the Group B reconciler and the custom-amount approval
    workflow of [bot.py], together with the properties the specification
    states about them.

    Conventions of the embedding.
    - Python [int] is [Z]; Python [str] is [string] (UTF-8 bytes).
    - The SQLite table [images] is the list of its rows in ascending
      [rowid] order, which is what [ORDER BY rowid ASC] returns.
    - A Python [dict] whose iteration order the code depends on
      ([forwarded_msgs], [pending_custom_amounts]) is an association list
      in insertion order; the other dictionaries and the sets are stdpp
      finite maps and sets.
    - A handler is a function from the incoming update and the program
      state to the new state and the list of transport requests it
      issues, in order. *)

From Stdlib Require Import ZArith String Ascii List Lia.
From Stdlib Require Import DecimalString.
From stdpp Require Import base option list gmap strings sorting.
Import ListNotations.
Open Scope Z_scope.
Open Scope string_scope.
Open Scope list_scope.

(** ** The image table and the queue allocator ([db.py]) *)

Module db.

(** A value stored under a key of the JSON metadata object.  The code only
    ever applies [int(...)] to it: [MInt z] is a value that [int] converts
    to [z], [MOther] one on which [int] raises [ValueError] or
    [TypeError]. *)
Inductive MetaValue :=
  | MInt (z : Z)
  | MOther.

(** The parsed metadata object of a row ([json.loads] of the [metadata]
    column). *)
Abbreviation Metadata := (gmap string MetaValue).

(** One row of [images].  [metadata = None] is a NULL or empty column,
    [queue_position = None] a NULL one. *)
Record Row := mkRow {
  rowid : Z;
  image_id : string;
  number : Z;
  file_id : string;
  status : string;
  metadata : option Metadata;
  queue_position : option Z
}.

(** The dictionary the allocator and [get_image_by_id] build from a row;
    the key [metadata] is present only when the column is non-empty, the
    key [rowid] only in the allocator's result. *)
Record Image := mkImage {
  img_image_id : string;
  img_number : Z;
  img_file_id : string;
  img_status : string;
  img_rowid : option Z;
  img_metadata : option Metadata
}.

Definition image_of_row (row : Row) : Image :=
  mkImage (image_id row) (number row) (file_id row) (status row)
          (Some (rowid row)) (metadata row).

(** [row[-1] or 0] *)
Definition qpos (row : Row) : Z := default 0 (queue_position row).

(** [max(row[-1] or 0 for row in all_rows)], on a non-empty table. *)
Definition max_position (all_rows : list Row) : Z :=
  match all_rows with
  | [] => 0
  | row :: rows => foldr (fun r m => Z.max (qpos r) m) (qpos row) rows
  end.

(** [row for row in all_rows if row[4] == 'open'] *)
Definition open_rows (all_rows : list Row) : list Row :=
  filter (fun row => status row = "open") all_rows.

Definition set_queue_position (p : Z) (row : Row) : Row :=
  mkRow (rowid row) (image_id row) (number row) (file_id row) (status row)
        (metadata row) (Some p).

(** [UPDATE images SET queue_position = ? WHERE image_id = ?] *)
Definition update_queue_position (p : Z) (id : string) (rows : list Row)
  : list Row :=
  (fun row => if decide (image_id row = id)
              then set_queue_position p row else row) <$> rows.

(** [get_next_image_in_queue]: the returned dictionary and the table after
    the call. *)
Definition get_next_image_in_queue (all_rows : list Row)
  : option Image * list Row :=
  match all_rows with
  | [] => (None, all_rows)
  | _ :: _ =>
    match open_rows all_rows with
    | [] => (None, all_rows)
    | first_open :: _ =>
      let max_position := max_position all_rows in
      let next_image :=
        if decide (max_position = 0) then first_open
        else
          match list_find (fun row => qpos row = max_position) all_rows with
          | Some (_, last_sent) =>
            match list_find (fun row => rowid last_sent < rowid row)
                            (open_rows all_rows) with
            | Some (_, row) => row
            | None => first_open
            end
          | None => first_open
          end in
      let new_position := max_position + 1 in
      (Some (image_of_row next_image),
       update_queue_position new_position (image_id next_image) all_rows)
    end
  end.

(** The table after [n] successive allocator calls. *)
Fixpoint db_after (n : nat) (rows : list Row) : list Row :=
  match n with
  | O => rows
  | S n' => db_after n' (snd (get_next_image_in_queue rows))
  end.

(** What the call number [n + 1] returns. *)
Definition nth_call (n : nat) (rows : list Row) : option Image :=
  fst (get_next_image_in_queue (db_after n rows)).

(** The open images, in creation order, as the allocator returns them. *)
Definition open_images (rows : list Row) : list Image :=
  image_of_row <$> open_rows rows.

(** Index, among the open rows, of the first one created after the row
    that holds the maximum queue position; [0] when nothing was allocated
    yet or when no open row follows. *)
Definition start_index (rows : list Row) : nat :=
  if decide (max_position rows = 0) then 0%nat
  else
    match list_find (fun row => qpos row = max_position rows) rows with
    | Some (_, last_sent) =>
      match list_find (fun row => rowid last_sent < rowid row)
                      (open_rows rows) with
      | Some (j, _) => j
      | None => 0%nat
      end
    | None => 0%nat
    end.

(** The table invariants SQLite maintains: rows come in strictly
    increasing [rowid] order and [image_id] is the primary key. *)
Definition well_formed (rows : list Row) : Prop :=
  StronglySorted (fun a b => rowid a < rowid b) rows /\
  NoDup (image_id <$> rows).

(** [set_image_status]: [UPDATE images SET status = ? WHERE image_id = ?];
    a missing image leaves the table as it is. *)
Definition set_image_status (id : string) (new_status : string)
    (rows : list Row) : list Row :=
  (fun row => if decide (image_id row = id)
              then mkRow (rowid row) (image_id row) (number row)
                         (file_id row) new_status (metadata row)
                         (queue_position row)
              else row) <$> rows.

(** [update_image_metadata]: [UPDATE images SET metadata = ? WHERE
    image_id = ?]; a missing image leaves the table as it is. *)
Definition update_image_metadata (id : string) (md : Metadata)
    (rows : list Row) : list Row :=
  (fun row => if decide (image_id row = id)
              then mkRow (rowid row) (image_id row) (number row)
                         (file_id row) (status row) (Some md)
                         (queue_position row)
              else row) <$> rows.

(** [get_image_by_id] *)
Definition get_image_by_id (id : string) (rows : list Row) : option Image :=
  (fun '(_, row) =>
     mkImage (image_id row) (number row) (file_id row) (status row)
             None (metadata row))
  <$> list_find (fun row => image_id row = id) rows.

(** The status [get_image_by_id] reads back for an image. *)
Definition status_of (id : string) (rows : list Row) : option string :=
  img_status <$> get_image_by_id id rows.

(** The result of a percentage-gated allocation: the returned dictionary,
    the table, and the number of [random.randint] draws consumed. *)
Definition Gated : Type := option Image * list Row * nat.

(** [get_next_image_in_queue_with_percentage].  [rolls k] is the value of
    the draw number [k] of [random.randint(1, 100)].  The function calls
    itself after a failed draw; [depth] bounds the nesting of these calls
    the way the interpreter's recursion limit does, and [None] is the
    nesting reaching that bound: the calls made so far have not led to a
    result.  What the interpreter does at its limit -- it raises
    [RecursionError], which the [except] clauses of the nested calls
    catch, so that the outermost call returns [None] -- is not part of
    this model. *)
Fixpoint get_next_image_in_queue_with_percentage (depth : nat)
    (group_b_percentages : gmap Z Z) (rolls : nat -> Z) (k : nat)
    (rows : list Row) : option Gated :=
  match depth with
  | O => None
  | S depth' =>
    let '(image, rows1) := get_next_image_in_queue rows in
    match image with
    | None => Some (None, rows1, k)
    | Some img =>
      if decide (group_b_percentages = ∅) then Some (image, rows1, k)
      else
        match default ∅ (img_metadata img) !! "source_group_b_id" with
        | Some (MInt source_group_b_id) =>
          match group_b_percentages !! source_group_b_id with
          | Some percentage =>
            let random_chance := rolls k in
            if decide (random_chance <= percentage)
            then Some (image, rows1, S k)
            else get_next_image_in_queue_with_percentage
                   depth' group_b_percentages rolls (S k) rows1
          | None => Some (image, rows1, k)
          end
        | Some MOther => Some (image, rows1, k)
        | None => Some (image, rows1, k)
        end
    end
  end.

(** *** The other operations on the table *)

(** The [rowid] SQLite gives an inserted row: one more than the largest
    in use, 1 in an empty table. *)
Definition next_rowid (rows : list Row) : Z :=
  match rows with
  | [] => 1
  | row :: rows' => foldr (fun r m => Z.max (rowid r) m) (rowid row) rows' + 1
  end.

(** [add_image]: [False] and no change when the id exists, else a new
    row; a new row reads queue position 0.  A number that does not fit
    the 64 bits of an SQLite integer makes the insertion raise
    [OverflowError], which the function catches: [False] again. *)
Definition add_image (id : string) (label : Z) (file : string)
    (new_status : string) (md : option Metadata) (rows : list Row)
  : bool * list Row :=
  match list_find (fun row => image_id row = id) rows with
  | Some _ => (false, rows)
  | None =>
    if decide (-9223372036854775808 <= label < 9223372036854775808) then
      (true, rows ++ [mkRow (next_rowid rows) id label file new_status md
                            (Some 0)])
    else (false, rows)
  end.

(** The dictionary built from a row by the functions that do not select
    [rowid]. *)
Definition plain_image (row : Row) : Image :=
  mkImage (image_id row) (number row) (file_id row) (status row) None
          (metadata row).

(** [get_all_images] *)
Definition get_all_images (rows : list Row) : list Image :=
  plain_image <$> rows.

(** [count_images_by_status]: the numbers of open and of closed images. *)
Definition count_images_by_status (rows : list Row) : nat * nat :=
  (length (filter (fun row => status row = "open") rows),
   length (filter (fun row => status row = "closed") rows)).

(** [reset_all_image_statuses]: [UPDATE images SET status = 'open'] *)
Definition reset_all_image_statuses (rows : list Row) : list Row :=
  (fun row => mkRow (rowid row) (image_id row) (number row) (file_id row)
                    "open" (metadata row) (queue_position row)) <$> rows.

(** [clear_all_images]: [DELETE FROM images] *)
Definition clear_all_images (rows : list Row) : list Row := [].

(** [reset_queue_positions]: [UPDATE images SET queue_position = 0] *)
Definition reset_queue_positions (rows : list Row) : list Row :=
  set_queue_position 0 <$> rows.

#[global] Instance MetaValue_eq_dec : EqDecision MetaValue.
Proof. solve_decision. Defined.

(** The test the deleting functions apply to a row's metadata:
    [int(metadata['source_group_b_id']) == int(group_b_id)], false when
    the metadata is missing, lacks the key, or [int] raises. *)
Definition belongs_to (group_b_id : Z) (row : Row) : Prop :=
  metadata row ≫= (fun md => md !! "source_group_b_id")
  = Some (MInt group_b_id).

#[global] Instance belongs_to_dec group_b_id row :
  Decision (belongs_to group_b_id row).
Proof. unfold belongs_to. apply _. Defined.

(** [clear_images_by_group_b]: deletes the images of one room.
    [has_metadata_column] tells whether the table has the [metadata]
    column, which [init_db] does not create and the first [add_image]
    adds; without it the function gives up with [False]. *)
Definition clear_images_by_group_b (has_metadata_column : bool)
    (group_b_id : Z) (rows : list Row) : bool * list Row :=
  if negb has_metadata_column then (false, rows)
  else
    let images_to_delete :=
      image_id <$> filter (belongs_to group_b_id) rows in
    match images_to_delete with
    | [] => (true, rows)
    | _ :: _ =>
      (true, filter (fun row => image_id row ∉ images_to_delete) rows)
    end.

(** [delete_image_by_number]: deletes the images of one room that carry
    the given number; [False] when there is none. *)
Definition delete_image_by_number (label : Z) (group_b_id : Z)
    (rows : list Row) : bool * list Row :=
  match filter (fun row => number row = label) rows with
  | [] => (false, rows)
  | candidates =>
    let images_to_delete :=
      image_id <$> filter (belongs_to group_b_id) candidates in
    match images_to_delete with
    | [] => (false, rows)
    | _ :: _ =>
      (true, filter (fun row => image_id row ∉ images_to_delete) rows)
    end
  end.

(** [random.choice(rows)], with the index the generator draws. *)
Definition random_choice {A} (draw : nat) (l : list A) : option A :=
  l !! (draw mod length l)%nat.

(** [get_random_open_image] *)
Definition get_random_open_image (draw : nat) (rows : list Row)
  : option Image :=
  plain_image <$> random_choice draw (open_rows rows).

(** [get_random_open_image_by_group_b]: an open image of the room when
    there is one, else any open image. *)
Definition get_random_open_image_by_group_b (group_b_id : Z) (draw : nat)
    (rows : list Row) : option Image :=
  match open_rows rows with
  | [] => None
  | _ :: _ =>
    match filter (belongs_to group_b_id) (open_rows rows) with
    | [] => get_random_open_image draw rows
    | filtered_rows => plain_image <$> random_choice draw filtered_rows
    end
  end.

Definition number_le (a b : Row) : Prop := number a <= number b.

#[global] Instance number_le_dec a b : Decision (number_le a b).
Proof. unfold number_le. apply _. Defined.

(** [... WHERE status = 'open' ORDER BY number ASC]; among equal numbers,
    whose order SQL leaves open, the rows keep their table order. *)
Definition open_rows_by_number (rows : list Row) : list Row :=
  merge_sort number_le (open_rows rows).

(** [get_next_open_image_ascending] *)
Definition get_next_open_image_ascending (rows : list Row) : option Image :=
  plain_image <$> head (open_rows_by_number rows).

(** The three classes of [get_next_open_image_ascending_with_percentage]. *)
Inductive Priority :=
  | Top
  | High (percentage : Z)
  | Normal (percentage : Z).

#[global] Instance Priority_eq_dec : EqDecision Priority.
Proof. solve_decision. Defined.

(** The class of an open row: by the percentage of its room, [Normal 100]
    without a room or without a setting for it. *)
Definition priority_of (group_b_percentages : gmap Z Z) (row : Row)
  : Priority :=
  match default ∅ (metadata row) !! "source_group_b_id" with
  | Some (MInt source_group_b_id) =>
    match group_b_percentages !! source_group_b_id with
    | Some percentage =>
      if decide (percentage = 100) then Top
      else if decide (50 <= percentage) then High percentage
      else Normal percentage
    | None => Normal 100
    end
  | Some MOther => Normal 100
  | None => Normal 100
  end.

(** The dictionary the priority selector builds: the key [metadata] is
    always set, to the empty object when the column is empty. *)
Definition image_with_metadata (row : Row) : Image :=
  mkImage (image_id row) (number row) (file_id row) (status row) None
          (Some (default ∅ (metadata row))).

(** One of the two drawing loops: the first candidate whose draw passes,
    and the number of the next draw. *)
Fixpoint first_passing (rolls : nat -> Z) (k : nat)
    (candidates : list (Image * Z)) : option Image * nat :=
  match candidates with
  | [] => (None, k)
  | (image, percentage) :: rest =>
    if decide (rolls k <= percentage) then (Some image, S k)
    else first_passing rolls (S k) rest
  end.

(** [get_next_open_image_ascending_with_percentage]: the returned
    dictionary and the number of the next draw. *)
Definition get_next_open_image_ascending_with_percentage
    (group_b_percentages : gmap Z Z) (rolls : nat -> Z) (k : nat)
    (rows : list Row) : option Image * nat :=
  match open_rows_by_number rows with
  | [] => (None, k)
  | row :: _ =>
    if decide (group_b_percentages = ∅) then (Some (plain_image row), k)
    else
      let classified :=
        (fun row => (image_with_metadata row,
                     priority_of group_b_percentages row))
        <$> open_rows_by_number rows in
      let priority_images :=
        omap (fun '(image, c) =>
                match c with Top => Some image | _ => None end) classified in
      let high_percentage_images :=
        omap (fun '(image, c) =>
                match c with High p => Some (image, p) | _ => None end)
             classified in
      let normal_images :=
        omap (fun '(image, c) =>
                match c with Normal p => Some (image, p) | _ => None end)
             classified in
      match priority_images with
      | selected_image :: _ => (Some selected_image, k)
      | [] =>
        match first_passing rolls k high_percentage_images with
        | (Some image, k') => (Some image, k')
        | (None, k') => first_passing rolls k' normal_images
        end
      end
  end.

(** What [get_queue_status] reports; [inl] is its error dictionary. *)
Record QueueStatus := mkQueueStatus {
  total_images : nat;
  open_images_count : nat;
  closed_images_count : nat;
  reported_max_position : Z;
  current_image : option (string * Z * string * option Z);
  next_image : option (string * Z);
  queue_order : list (string * Z * string * Z)
}.

(** [get_queue_status], on a table that has the [queue_position]
    column, which the first call of the allocator adds; without the
    column the function returns the error [Queue system not initialized],
    which this model leaves out. *)
Definition get_queue_status (rows : list Row) : string + QueueStatus :=
  match rows with
  | [] => inl "No images in queue"
  | _ :: _ =>
    let max_position := max_position rows in
    let current :=
      snd <$> list_find (fun row => qpos row = max_position) rows in
    let first_open :=
      (fun '(_, row) => (image_id row, number row))
      <$> list_find (fun row => status row = "open") rows in
    let next :=
      match current with
      | Some current_row =>
        match list_find (fun row => image_id row = image_id current_row)
                        rows with
        | Some (_, found) =>
          match list_find (fun row => rowid found < rowid row /\
                                      status row = "open") rows with
          | Some (_, row) => Some (image_id row, number row)
          | None => first_open
          end
        | None => None
        end
      | None => None
      end in
    inr (mkQueueStatus
           (length rows)
           (length (filter (fun row => status row = "open") rows))
           (length (filter (fun row => status row = "closed") rows))
           max_position
           ((fun row => (image_id row, number row, status row,
                         queue_position row)) <$> current)
           next
           ((fun row => (image_id row, number row, status row, qpos row))
            <$> rows))
  end.

End db.

(** ** The reconciler and the approval workflow ([bot.py]) *)

Module bot.

(** *** Text helpers *)

(** [str(n)] for an [int]. *)
Definition str_Z (z : Z) : string := NilZero.string_of_int (Z.to_int z).

Definition newline : string := String (ascii_of_nat 10) EmptyString.
Definition quote : string := String (ascii_of_nat 34) EmptyString.

(** A Python string is a sequence of code points.  A text is held as
    its UTF-8 encoding, and the functions that depend on the class of a
    character read it character by character. *)

(** A byte that continues a character. *)
Definition is_continuation (c : ascii) : bool :=
  let n := nat_of_ascii c in (128 <=? n)%nat && (n <? 192)%nat.

(** The characters of a text, each as the bytes that encode it. *)
Fixpoint chars (s : string) : list string :=
  match s with
  | EmptyString => []
  | String c s' =>
    match chars s' with
    | String c' char :: rest =>
      if is_continuation c' then String c (String c' char) :: rest
      else String c EmptyString :: String c' char :: rest
    | rest => String c EmptyString :: rest
    end
  end.

(** [''.join(characters)] *)
Definition join (characters : list string) : string :=
  foldr String.append EmptyString characters.

(** The code point that the bytes of a character encode. *)
Definition code_point (char : string) : Z :=
  match (fun c => Z.of_nat (nat_of_ascii c)) <$> list_ascii_of_string char with
  | [b0] => b0
  | [b0; b1] => (b0 - 192) * 64 + (b1 - 128)
  | [b0; b1; b2] => (b0 - 224) * 4096 + (b1 - 128) * 64 + (b2 - 128)
  | [b0; b1; b2; b3] =>
    (b0 - 240) * 262144 + (b1 - 128) * 4096 + (b2 - 128) * 64 + (b3 - 128)
  | _ => 0
  end.

(** The code points of [str.isspace]: what [str.strip] removes and the
    class [\s] matches. *)
Definition whitespace : list Z :=
  [ 9; 10; 11; 12; 13; 28; 29; 30; 31; 32; 133; 160; 5760;
    8192; 8193; 8194; 8195; 8196; 8197; 8198; 8199; 8200; 8201; 8202;
    8232; 8233; 8239; 8287; 12288 ].

Definition is_space (char : string) : bool :=
  bool_decide (code_point char ∈ whitespace).

(** The digit zero of every script of Unicode 14.  The decimal digits,
    which the class [\d] matches and [int] reads, are these code points
    and the nine that follow each; a later Unicode version adds scripts
    at the end. *)
Definition decimal_zeros : list Z :=
  [ 48; 1632; 1776; 1984; 2406; 2534; 2662; 2790; 2918; 3046; 3174; 3302;
    3430; 3558; 3664; 3792; 3872; 4160; 4240; 6112; 6160; 6470; 6608; 6784;
    6800; 6992; 7088; 7232; 7248; 42528; 43216; 43264; 43472; 43504; 43600;
    44016; 65296; 66720; 68912; 69734; 69872; 69942; 70096; 70384; 70736;
    70864; 71248; 71360; 71472; 71904; 72016; 72784; 73040; 73120; 92768;
    92864; 93008; 120782; 120792; 120802; 120812; 120822; 123200; 123632;
    125264; 130032 ].

(** The value of a decimal digit, [None] for any other character. *)
Definition decimal_value (char : string) : option Z :=
  (fun zero => code_point char - zero)
  <$> head (filter (fun zero => zero <= code_point char <= zero + 9)
                   decimal_zeros).

(** Membership in the character class [\d]. *)
Definition is_digit (char : string) : bool :=
  bool_decide (is_Some (decimal_value char)).

Fixpoint skip_spaces (characters : list string) : list string :=
  match characters with
  | [] => []
  | char :: rest => if is_space char then skip_spaces rest else characters
  end.

(** [s.lstrip()], which is also what a leading [\s*] consumes. *)
Definition lstrip (s : string) : string := join (skip_spaces (chars s)).

(** [s.strip()] *)
Definition strip (s : string) : string :=
  join (reverse (skip_spaces (reverse (skip_spaces (chars s))))).

(** [needle in hay] *)
Fixpoint contains (needle hay : string) : bool :=
  if String.prefix needle hay then true
  else match hay with
       | EmptyString => false
       | String _ hay' => contains needle hay'
       end.

Definition emit (run : string) : list string :=
  if decide (run = EmptyString) then [] else [run].

(** [re.findall(r'\d+', text)]: the maximal runs of digits, left to
    right; [run] is the run being read. *)
Fixpoint findall_digits_from (run : string) (characters : list string)
  : list string :=
  match characters with
  | [] => emit run
  | char :: rest =>
    if is_digit char then findall_digits_from (run +:+ char) rest
    else emit run ++ findall_digits_from EmptyString rest
  end.

Definition findall_digits (text : string) : list string :=
  findall_digits_from EmptyString (chars text).

(** [[m[1:] for m in re.findall(r'\+\d+', text)]]: the digit runs that
    directly follow a plus sign.  [run = Some r] after a plus sign
    followed by the digits [r]. *)
Fixpoint findall_plus_digits_from (run : option string)
    (characters : list string) : list string :=
  match characters with
  | [] => emit (default EmptyString run)
  | char :: rest =>
    if is_digit char then
      match run with
      | Some r => findall_plus_digits_from (Some (r +:+ char)) rest
      | None => findall_plus_digits_from None rest
      end
    else if decide (char = "+") then
      emit (default EmptyString run)
      ++ findall_plus_digits_from (Some EmptyString) rest
    else
      emit (default EmptyString run) ++ findall_plus_digits_from None rest
  end.

Definition findall_plus_digits (text : string) : list string :=
  findall_plus_digits_from None (chars text).

(** *** Dictionaries in insertion order *)

Section dict.
Context {K V : Type} `{EqDecision K}.

(** [d[k] = v]: an existing key keeps its place, a new one goes last. *)
Fixpoint dict_set (k : K) (v : V) (d : list (K * V)) : list (K * V) :=
  match d with
  | [] => [(k, v)]
  | (k', v') :: d' =>
    if decide (k' = k) then (k, v) :: d' else (k', v') :: dict_set k v d'
  end.

(** [d.get(k)] *)
Definition dict_get (k : K) (d : list (K * V)) : option V :=
  (fun '(_, (_, v)) => v) <$> list_find (fun kv => kv.1 = k) d.

(** [del d[k]] *)
Definition dict_del (k : K) (d : list (K * V)) : list (K * V) :=
  filter (fun kv => kv.1 <> k) d.

End dict.

(** *** Data *)

(** A value of [forwarded_msgs], keyed by image id.  Every place that
    stores an entry sets all of these keys except [is_click_mode], which
    the readers default to [False]; [original_message_id = None] is a
    stored [None]. *)
Record MsgData := mkMsgData {
  group_a_msg_id : Z;
  group_a_chat_id : Z;
  group_b_msg_id : Z;
  group_b_chat_id : Z;
  image_id : string;
  amount : string;
  number : string;
  original_user_id : Z;
  original_message_id : option Z;
  is_click_mode : bool
}.

(** A value of [pending_custom_amounts], keyed by the id of the message
    that carried the custom amount.  [pa_timestamp] is the clock reading
    whose ISO form the code stores. *)
Record Approval := mkApproval {
  pa_img_id : string;
  pa_amount : string;
  pa_responder : Z;
  pa_responder_name : string;
  pa_original_msg_id : Z;
  pa_reply_to_msg_id : option Z;
  pa_message_text : string;
  pa_timestamp : Z
}.

(** [update.message.reply_to_message] *)
Record RepliedMessage := mkReplied {
  replied_message_id : Z;
  replied_text : option string
}.

(** The fields of the incoming update the handlers read. *)
Record Update := mkUpdate {
  chat_id : Z;
  chat_type : string;
  message_id : Z;
  text : string;
  user_id : Z;
  user_name : string;
  reply_to_message : option RepliedMessage
}.

(** What a handler gets from outside the program: the clock, the names
    [get_chat_member] reports ([None] when it raises), and the error
    [safe_send_message] ends with in [process_custom_amount_approval]
    ([None] when the relay is delivered).  All other transport calls are
    taken to succeed. *)
Record Env := mkEnv {
  now : Z;
  chat_member_name : Z -> Z -> option string;
  relay_error : option string
}.

(** The module-level state and the image table. *)
Record State := mkState {
  forwarded_msgs : list (string * MsgData);
  group_b_responses : gmap string string;
  pending_custom_amounts : list (Z * Approval);
  images : list db.Row;
  FORWARDING_ENABLED : bool;
  GLOBAL_ADMINS : gset Z;
  GROUP_ADMINS : gmap Z (gset Z)
}.

(** Transport requests. *)
Inductive Request :=
  | send_message (to_chat : Z) (body : string) (reply_to_message_id : option Z)
  | reply_text (body : string)
  | edit_message_text (in_chat : Z) (message : Z) (body : string)
  | schedule_message_deletion (in_chat : Z) (message : Z) (delay_seconds : Z)
  | get_chat_member (in_chat : Z) (user : Z).

Definition with_response (img_id response : string) (s : State) : State :=
  mkState (forwarded_msgs s) (<[img_id := response]> (group_b_responses s))
          (pending_custom_amounts s) (images s) (FORWARDING_ENABLED s)
          (GLOBAL_ADMINS s) (GROUP_ADMINS s).

Definition with_status (img_id new_status : string) (s : State) : State :=
  mkState (forwarded_msgs s) (group_b_responses s)
          (pending_custom_amounts s)
          (db.set_image_status img_id new_status (images s))
          (FORWARDING_ENABLED s) (GLOBAL_ADMINS s) (GROUP_ADMINS s).

Definition with_pending (pending : list (Z * Approval)) (s : State) : State :=
  mkState (forwarded_msgs s) (group_b_responses s) pending (images s)
          (FORWARDING_ENABLED s) (GLOBAL_ADMINS s) (GROUP_ADMINS s).

(** *** Administrators *)

Definition is_global_admin (user : Z) (s : State) : bool :=
  bool_decide (user ∈ GLOBAL_ADMINS s).

Definition is_group_admin (user chat : Z) (s : State) : bool :=
  if is_global_admin user s then true
  else bool_decide (user ∈ default ∅ (GROUP_ADMINS s !! chat)).

(** *** Room affinity *)

(** [get_group_b_for_image].  [py_hash] is the built-in [hash] of the
    running interpreter, [GROUP_B_IDS] the configured rooms in the order
    [list(GROUP_B_IDS)] lists them; [metadata = None] is an argument that
    is not a dictionary. *)
Definition get_group_b_for_image (py_hash : string -> Z)
    (GROUP_B_IDS : list Z) (image_id : string)
    (metadata : option db.Metadata) (rows : list db.Row)
  : option Z * list db.Row :=
  let stored :=
    match metadata with
    | Some md =>
      match md !! "source_group_b_id" with
      | Some (db.MInt source_group_b_id) =>
        if decide (source_group_b_id ∈ GROUP_B_IDS)
        then Some source_group_b_id else None
      | _ => None
      end
    | None => None
    end in
  match stored with
  | Some source_group_b_id => (Some source_group_b_id, rows)
  | None =>
    let image_hash := py_hash image_id in
    match GROUP_B_IDS with
    | [] => (None, rows)
    | _ :: _ =>
      let selected_index :=
        Z.abs image_hash mod Z.of_nat (length GROUP_B_IDS) in
      match GROUP_B_IDS !! Z.to_nat selected_index with
      | Some target_group_b_id =>
        let updated_metadata :=
          <["source_group_b_id" := db.MInt target_group_b_id]>
            (default ∅ metadata) in
        (Some target_group_b_id,
         db.update_image_metadata image_id updated_metadata rows)
      | None => (None, rows)
      end
    end
  end.

(** How the callers resolve a stored image: read it back with
    [get_image_by_id] and pass [image.get('metadata', {})]. *)
Definition group_b_for_stored_image (py_hash : string -> Z)
    (GROUP_B_IDS : list Z) (img_id : string) (rows : list db.Row)
  : option Z * list db.Row :=
  match db.get_image_by_id img_id rows with
  | None => (None, rows)
  | Some image =>
    get_group_b_for_image py_hash GROUP_B_IDS (db.img_image_id image)
      (Some (default ∅ (db.img_metadata image))) rows
  end.

(** *** The reconciler *)

Definition no_show_text : string := "会员没进群呢哥哥~ 😢".

(** First entry of [forwarded_msgs], in iteration order, whose
    [group_b_msg_id] is the id of the message replied to. *)
Definition find_by_reply (reply_msg_id : Z)
    (entries : list (string * MsgData)) : option (string * MsgData) :=
  snd <$> list_find (fun kv => group_b_msg_id kv.2 = reply_msg_id) entries.


(** [original_message_id if original_message_id else data['group_a_msg_id']] *)
Definition relay_anchor (data : MsgData) : Z :=
  match original_message_id data with
  | Some m => if decide (m = 0) then group_a_msg_id data else m
  | None => group_a_msg_id data
  end.

(** The relay to Group A through [safe_send_message]. *)
Definition relay (data : MsgData) (body : string) : list Request :=
  [send_message (group_a_chat_id data) body (Some (relay_anchor data))].

(** The branch of [handle_all_group_b_messages] for a reply of ["0"] or
    ["+0"] to a tracked message. *)
Definition handle_no_show (img_id : string) (data : MsgData) (s : State)
  : State * list Request :=
  let s1 := with_status img_id "open" (with_response img_id "+0" s) in
  let rendering :=
    if is_click_mode data
    then [schedule_message_deletion (group_b_chat_id data)
                                    (group_b_msg_id data) 60]
    else [edit_message_text (group_b_chat_id data) (group_b_msg_id data)
            ("群" +:+ number data +:+ " (取消/退出/没进/自定义金额)")] in
  (s1, rendering ++ (if FORWARDING_ENABLED s then relay data no_show_text
                     else [])).

(** [process_group_b_response]; its [match_type] argument is only
    logged. *)
Definition process_group_b_response (img_id : string) (msg_data : MsgData)
    (number original_text : string) (s : State) : State * list Request :=
  let is_zero :=
    bool_decide (number = "0" \/ original_text = "+0" \/ original_text = "0") in
  let response_text :=
    if is_zero then no_show_text
    else if contains "+" original_text then original_text
    else "+" +:+ number in
  let s1 := with_status img_id "open" (with_response img_id response_text s) in
  let rendering :=
    if is_click_mode msg_data
    then [schedule_message_deletion (group_b_chat_id msg_data)
                                    (group_b_msg_id msg_data) 60]
    else [edit_message_text (group_b_chat_id msg_data)
            (group_b_msg_id msg_data)
            (if is_zero
             then "群" +:+ bot.number msg_data +:+ " (取消/退出/没进/自定义金额)"
             else "群" +:+ bot.number msg_data)] in
  (s1, rendering ++ (if FORWARDING_ENABLED s then relay msg_data response_text
                     else [])).

(** The private notification [handle_custom_amount] sends to a global
    admin. *)
Definition approval_notice (update : Update) (msg_data : MsgData)
    (number : string) : string :=
  "🔔 需要审批:" +:+ newline +:+
  "👤 用户 " +:+ user_name update +:+ " (ID: " +:+ str_Z (user_id update)
    +:+ ") 在群 B 提交了自定义金额:" +:+ newline +:+
  "💰 原始金额: " +:+ amount msg_data +:+ newline +:+
  "💲 自定义金额: " +:+ number +:+ newline +:+
  "🔢 群号: " +:+ bot.number msg_data +:+ newline +:+ newline +:+
  "✅ 审批方式:" +:+ newline +:+
  "1️⃣ 直接回复此消息并输入" +:+ quote +:+ "同意" +:+ quote +:+ "或"
    +:+ quote +:+ "确认" +:+ quote +:+ newline +:+
  "2️⃣ 或在群 B 找到用户发送的自定义金额消息（例如: +" +:+ number
    +:+ "）并回复" +:+ quote +:+ "同意" +:+ quote +:+ "或" +:+ quote
    +:+ "确认" +:+ quote.

(** [handle_custom_amount] *)
Definition handle_custom_amount (env : Env) (update : Update)
    (img_id : string) (msg_data : MsgData) (number : string) (s : State)
  : State * list Request :=
  let approval :=
    mkApproval img_id number (user_id update) (user_name update)
               (message_id update)
               (replied_message_id <$> reply_to_message update)
               (text update) (now env) in
  let s1 :=
    with_pending (dict_set (message_id update) approval
                           (pending_custom_amounts s)) s in
  let admins := elements (GLOBAL_ADMINS s) in
  let admin_mentions :=
    foldr (fun admin_id rest =>
             match chat_member_name env (chat_id update) admin_id with
             | Some admin_name => "@" +:+ admin_name +:+ " " +:+ rest
             | None => rest
             end) EmptyString admins in
  (s1,
   (get_chat_member (chat_id update) <$> admins)
   ++ [reply_text ("👤 用户 " +:+ user_name update +:+ " 提交的自定义金额 +"
                   +:+ number +:+ " 需要全局管理员确认 " +:+ admin_mentions)]
   ++ ((fun admin_id =>
          send_message admin_id (approval_notice update msg_data number) None)
       <$> admins)).


(** [handle_all_group_b_messages] *)
Definition handle_all_group_b_messages (env : Env) (update : Update)
    (s : State) : State * list Request :=
  let text := strip (text update) in
  if decide (text = EmptyString) then (s, [])
  else
    let no_show_entry :=
      if bool_decide (text = "+0" \/ text = "0") then
        match reply_to_message update with
        | Some replied =>
          find_by_reply (replied_message_id replied) (forwarded_msgs s)
        | None => None
        end
      else None in
    match no_show_entry with
    | Some (img_id, data) => handle_no_show img_id data s
    | None =>
      let raw_numbers := findall_digits text in
      let plus_numbers := findall_plus_digits text in
      match reply_to_message update with
      | Some replied =>
        match find_by_reply (replied_message_id replied)
                            (forwarded_msgs s) with
        | Some (img_id, data) =>
          let classify (number : string) :=
            if decide (number = amount data) then
              process_group_b_response img_id data number ("+" +:+ number) s
            else if decide (number = bot.number data) then (s, [])
            else if is_group_admin (user_id update) (chat_id update) s
                    || is_global_admin (user_id update) s
            then handle_custom_amount env update img_id data number s
            else (s, []) in
          match plus_numbers with
          | number :: _ => classify number
          | [] =>
            match raw_numbers with
            | number :: _ => classify number
            | [] => (s, [])
            end
          end
        | None => (s, [])
        end
      | None => (s, [])
      end
    end.

(** *** The approval workflow *)

(** [process_custom_amount_approval] *)
Definition process_custom_amount_approval (env : Env) (update : Update)
    (msg_id : Z) (approval_data : Approval) (s : State)
  : State * list Request :=
  let img_id := pa_img_id approval_data in
  let custom_amount := pa_amount approval_data in
  match dict_get img_id (forwarded_msgs s) with
  | Some msg_data =>
    let response_text := "+" +:+ custom_amount in
    let s1 :=
      with_status img_id "open" (with_response img_id response_text s) in
    let relayed :=
      if FORWARDING_ENABLED s then relay msg_data response_text else [] in
    match (if FORWARDING_ENABLED s then relay_error env else None) with
    | Some e =>
      (s1, relayed ++ [reply_text ("金额已批准，但发送到需方群失败: " +:+ e)])
    | None =>
      let confirmation :=
        if decide (chat_type update = "private") then
          if decide (group_b_chat_id msg_data = 0) then []
          else [send_message (group_b_chat_id msg_data)
                  ("✅ 金额确认修改：+" +:+ custom_amount +:+ " (由管理员 "
                   +:+ user_name update +:+ " 批准)")
                  (pa_reply_to_msg_id approval_data)]
        else [reply_text ("✅ 金额确认修改：+" +:+ custom_amount)] in
      (with_pending (dict_del msg_id (pending_custom_amounts s1)) s1,
       relayed ++ confirmation)
    end
  | None => (s, [reply_text "无法找到相关图片信息，批准失败。"])
  end.

(** [max(pending_custom_amounts.keys())] on a non-empty dictionary. *)
Definition max_key (first : Z) (rest : list (Z * Approval)) : Z :=
  foldr (fun kv m => Z.max kv.1 m) first rest.

Definition not_found_notice : string :=
  "⚠️ 没有找到此消息的待审批记录。请检查是否回复了正确的消息。".

(** [handle_custom_amount_approval] *)
Definition handle_custom_amount_approval (env : Env) (update : Update)
    (s : State) : State * list Request :=
  if negb (is_global_admin (user_id update) s) then (s, [])
  else
    match reply_to_message update with
    | None => (s, [])
    | Some replied =>
      if negb (contains "同意" (text update) || contains "确认" (text update))
      then (s, [])
      else if decide (chat_type update = "private") then
        match pending_custom_amounts s with
        | [] => (s, [reply_text "没有待审批的自定义金额。"])
        | (k, _) :: rest =>
          let most_recent_msg_id := max_key k rest in
          match dict_get most_recent_msg_id (pending_custom_amounts s) with
          | Some approval_data =>
            process_custom_amount_approval env update most_recent_msg_id
                                           approval_data s
          | None => (s, [])
          end
        end
      else
        let reply_msg_id := replied_message_id replied in
        match dict_get reply_msg_id (pending_custom_amounts s) with
        | Some approval_data =>
          process_custom_amount_approval env update reply_msg_id
                                         approval_data s
        | None =>
          match list_find
                  (fun kv => pa_original_msg_id kv.2 = reply_msg_id \/
                             pa_reply_to_msg_id kv.2 = Some reply_msg_id)
                  (pending_custom_amounts s) with
          | Some (_, (msg_id, data)) =>
            process_custom_amount_approval env update msg_id data s
          | None =>
            let reply_message_text := default EmptyString (replied_text replied) in
            match list_find
                    (fun kv => contains ("+" +:+ pa_amount kv.2)
                                        reply_message_text = true)
                    (pending_custom_amounts s) with
            | Some (_, (msg_id, data)) =>
              process_custom_amount_approval env update msg_id data s
            | None =>
              (s, [reply_text not_found_notice])
            end
          end
        end
    end.

(** *** The forwarding switch *)

Definition with_forwarding (enabled : bool) (s : State) : State :=
  mkState (forwarded_msgs s) (group_b_responses s)
          (pending_custom_amounts s) (images s) enabled
          (GLOBAL_ADMINS s) (GROUP_ADMINS s).

(** [str.lower], on the ASCII letters.  Python also maps the cased
    letters beyond ASCII; the handler only tests the result for phrases
    that have no cased character, and for these the test gives the same
    answer. *)
Definition lower_char (c : ascii) : ascii :=
  let n := nat_of_ascii c in
  if (65 <=? n)%nat && (n <=? 90)%nat then ascii_of_nat (n + 32) else c.

Fixpoint lower (s : string) : string :=
  match s with
  | EmptyString => EmptyString
  | String c s' => String (lower_char c) (lower s')
  end.

(** [handle_toggle_forwarding] *)
Definition handle_toggle_forwarding (update : Update) (s : State)
  : State * list Request :=
  if negb (is_global_admin (user_id update) s)
  then (s, [reply_text "只有全局管理员可以切换转发状态。"])
  else
    let text := lower (strip (text update)) in
    if contains "开启转发" text then
      (with_forwarding true s,
       [reply_text "✅ 群转发功能已开启 - 消息将从群B转发到群A"])
    else if contains "关闭转发" text then
      (with_forwarding false s,
       [reply_text "🚫 群转发功能已关闭 - 消息将不会从群B转发到群A"])
    else
      let enabled := negb (FORWARDING_ENABLED s) in
      (with_forwarding enabled s,
       [reply_text (if enabled then "✅ 群转发功能已开启"
                    else "🚫 群转发功能已关闭")]).

(** *** The intake *)

(** The configuration the intake reads besides [State]; [GROUP_B_IDS] in
    the order [list(GROUP_B_IDS)] lists the rooms. *)
Record Config := mkConfig {
  GROUP_A_IDS : gset Z;
  GROUP_B_IDS : list Z;
  GROUP_B_CLICK_MODE : gmap Z bool;
  group_b_percentages : gmap Z Z
}.

(** What one call of the intake gets from the interpreter and from the
    transport: the built-in [hash], the draws of [random.randint(1, 100)]
    in order, the nesting the recursion limit leaves to the gated
    allocator, and the ids of the two messages it sends. *)
Record Runtime := mkRuntime {
  py_hash : string -> Z;
  rolls : nat -> Z;
  recursion_limit : nat;
  photo_message_id : Z;
  forward_message_id : Z
}.

(** Transport requests of the intake and of the buttons, besides the
    plain ones. *)
Inductive Outgoing :=
  | plain (request : Request)
  | reply_photo (photo caption : string)
  | send_with_button (to_chat : Z) (body : string)
                     (button callback_data : string)
  | answer_query (notice : option string)
  | edit_query_message (body : string) (button callback_data : string).

Definition with_images (rows : list db.Row) (s : State) : State :=
  mkState (forwarded_msgs s) (group_b_responses s)
          (pending_custom_amounts s) rows (FORWARDING_ENABLED s)
          (GLOBAL_ADMINS s) (GROUP_ADMINS s).

(** The longest run of digits a text starts with, and what follows. *)
Fixpoint span_digits (characters : list string) : string * list string :=
  match characters with
  | [] => (EmptyString, [])
  | char :: rest =>
    if is_digit char then
      let '(run, rest') := span_digits rest in (char +:+ run, rest')
    else (EmptyString, characters)
  end.

Definition leading_digits (s : string) : string * string :=
  let '(run, rest) := span_digits (chars s) in (run, join rest).

(** The text after a literal prefix. *)
Fixpoint after (literal s : string) : option string :=
  match literal with
  | EmptyString => Some s
  | String a literal' =>
    match s with
    | String b s' => if Ascii.eqb a b then after literal' s' else None
    | EmptyString => None
    end
  end.

Definition only_digits (s : string) : bool := forallb is_digit (chars s).

(** [(\d+)$] *)
Definition digits_to_end (s : string) : option string :=
  if only_digits s && negb (bool_decide (s = EmptyString)) then Some s
  else None.

(** [^(\d+)] followed by a rest that [tail] accepts. *)
Definition digits_then (tail : string -> bool) (s : string) : option string :=
  let '(run, rest) := leading_digits s in
  if negb (bool_decide (run = EmptyString)) && tail rest then Some run
  else None.

(** The nine patterns of the intake, in its order, on a stripped text;
    [\s*] is [lstrip]. *)
Definition patterns : list (string -> option string) :=
  [ digits_to_end;
    digits_then (fun rest => bool_decide (lstrip rest = "群"));
    (fun s => after "群" s ≫= fun rest => digits_to_end (lstrip rest));
    (fun s => after "微信" s ≫= fun rest => digits_to_end (lstrip rest));
    digits_then (fun rest => bool_decide (lstrip rest = "微信"));
    (fun s => after "微信群" s ≫= fun rest => digits_to_end (lstrip rest));
    digits_then (fun rest => bool_decide (lstrip rest = "微信群"));
    (fun s => after "微信" s ≫= fun rest =>
              after "群" (lstrip rest) ≫= fun rest' =>
              digits_to_end (lstrip rest'));
    digits_then (fun rest =>
                   bool_decide ((after "微信" (lstrip rest)
                                 ≫= fun rest' => Some (lstrip rest'))
                                = Some "群")) ].

(** The loop over the patterns: the group of the first pattern that
    matches. *)
Definition intake_amount (text : string) : option string :=
  head (omap (fun pattern => pattern text) patterns).

(** [int(amount)] on a run of digits. *)
Definition int_of_digits (s : string) : Z :=
  fold_left (fun acc char => 10 * acc + default 0 (decimal_value char))
            (chars s) 0.

(** The text the intake forwards to the fulfillment room. *)
Definition forward_text (is_click_mode : bool) (amount : string) (label : Z)
  : string :=
  if is_click_mode then
    "💰 金额：" +:+ amount +:+ newline +:+ "🔢 群：" +:+ str_Z label
  else
    "💰 金额：" +:+ amount +:+ newline +:+ "🔢 群：" +:+ str_Z label
    +:+ newline +:+ newline +:+ "❌ 如果会员10分钟没进群请回复0".

(** [handle_group_a_message].  [None] is the gated allocator reaching the
    recursion limit; what follows in the interpreter (the allocator then
    returns [None] and the handler goes on with the plain allocator) is
    not part of this model. *)
Definition handle_group_a_message (config : Config) (rt : Runtime)
    (update : Update) (s : State) : option (State * list Outgoing) :=
  if decide (chat_id update ∉ GROUP_A_IDS config) then Some (s, [])
  else
    let text := strip (text update) in
    if String.prefix "+" text then Some (s, [])
    else
      match intake_amount text with
      | None => Some (s, [])
      | Some amount =>
        let amount_int := int_of_digits amount in
        if decide (amount_int < 20 \/ 5000 < amount_int) then Some (s, [])
        else
          match db.get_all_images (images s) with
          | [] => Some (s, [])
          | _ :: _ =>
            let '(open_count, closed_count) :=
              db.count_images_by_status (images s) in
            if decide (open_count = 0 /\ 0 < closed_count)%nat
            then Some (s, [])
            else
              match db.get_next_image_in_queue_with_percentage
                      (recursion_limit rt) (group_b_percentages config)
                      (rolls rt) 0 (images s) with
              | None => None
              | Some (gated, rows1, _) =>
                let '(image, rows2) :=
                  match gated with
                  | Some img => (Some img, rows1)
                  | None => db.get_next_image_in_queue rows1
                  end in
                match image with
                | None =>
                  Some (with_images rows2 s,
                        [plain (reply_text "No open images available.")])
                | Some image =>
                  let photo :=
                    reply_photo (db.img_file_id image)
                                ("🌟 群: " +:+ str_Z (db.img_number image)
                                 +:+ " 🌟") in
                  let metadata := default ∅ (db.img_metadata image) in
                  let '(target, rows3) :=
                    get_group_b_for_image (py_hash rt) (GROUP_B_IDS config)
                      (db.img_image_id image) (Some metadata) rows2 in
                  match target with
                  | None =>
                    Some (with_images rows3 s,
                          [photo;
                           plain (reply_text "Error: No Group B configured. Please ask admin to set up Group B.")])
                  | Some target_group_b_id =>
                    if decide (target_group_b_id ∈ GROUP_B_IDS config) then
                      let is_click_mode :=
                        default false
                          (GROUP_B_CLICK_MODE config !! target_group_b_id) in
                      let message_text :=
                        forward_text is_click_mode amount
                                     (db.img_number image) in
                      let forward :=
                        if is_click_mode then
                          send_with_button target_group_b_id message_text
                            "解除" ("release_" +:+ db.img_image_id image)
                        else
                          plain (send_message target_group_b_id message_text
                                              None) in
                      let data :=
                        mkMsgData (photo_message_id rt) (chat_id update)
                                  (forward_message_id rt) target_group_b_id
                                  (db.img_image_id image) amount
                                  (str_Z (db.img_number image))
                                  (user_id update)
                                  (Some (message_id update)) is_click_mode in
                      Some (mkState
                              (dict_set (db.img_image_id image) data
                                        (forwarded_msgs s))
                              (group_b_responses s)
                              (pending_custom_amounts s)
                              (db.set_image_status (db.img_image_id image)
                                                   "closed" rows3)
                              (FORWARDING_ENABLED s) (GLOBAL_ADMINS s)
                              (GROUP_ADMINS s),
                            [photo; forward])
                    else
                      Some (with_images rows3 s,
                            [photo;
                             plain (reply_text "Error: Invalid Group B configuration.")])
                  end
                end
              end
          end
      end.

(** *** The release button *)


(** [button_callback] on callback data that starts with [released_]. *)
Definition button_callback_released (s : State) : State * list Outgoing :=
  (s, [answer_query None; answer_query (Some "状态已解除")]).

(** *** Promotion *)




(** *** Percentages *)

Definition with_percentages (percentages : gmap Z Z) (config : Config)
  : Config :=
  mkConfig (GROUP_A_IDS config) (GROUP_B_IDS config)
           (GROUP_B_CLICK_MODE config) percentages.

(** [handle_set_group_b_percentage].  Each argument of the command is
    given by what [int] makes of it, [None] when [int] raises
    [ValueError]. *)
Definition handle_set_group_b_percentage (args : list (option Z)) (user : Z)
    (config : Config) (s : State) : Config * list Request :=
  if negb (is_global_admin user s)
  then (config, [reply_text "⚠️ Only global admins can use this command."])
  else
    match args with
    | [first; second] =>
      match first, second with
      | Some group_b_id, Some percentage =>
        if decide (percentage < 0 \/ 100 < percentage) then
          (config, [reply_text "❌ Percentage must be between 0 and 100"])
        else if decide (group_b_id ∉ GROUP_B_IDS config) then
          (config,
           [reply_text ("⚠️ Group ID " +:+ str_Z group_b_id
                        +:+ " is not a registered Group B")])
        else
          (with_percentages
             (<[group_b_id := percentage]> (group_b_percentages config))
             config,
           [reply_text ("✅ Set Group B " +:+ str_Z group_b_id +:+ " to "
                        +:+ str_Z percentage
                        +:+ "% chance for image distribution")])
      | _, _ =>
        (config,
         [reply_text "❌ Invalid format. Use: /setgroupbpercent <group_b_id> <percentage>"])
      end
    | _ =>
      (config,
       [reply_text ("Usage: /setgroupbpercent <group_b_id> <percentage>"
                    +:+ newline
                    +:+ "Example: /setgroupbpercent -1002648811668 75")])
    end.

(** *** Registering an image *)

(** The fields of a photo message the handler reads: [photo] is the file
    id of the last size, [None] without a photo. *)
Record PhotoUpdate := mkPhotoUpdate {
  photo_chat_id : Z;
  photo_user_id : Z;
  photo : option string;
  caption : option string
}.

(** [re.search(r'设置群\s*(\d+)', caption)]: the group of the leftmost
    match. *)
Fixpoint search_set_group (caption : string) : option string :=
  let here :=
    match after "设置群" caption with
    | Some rest =>
      let '(run, _) := leading_digits (lstrip rest) in
      if decide (run = EmptyString) then None else Some run
    | None => None
    end in
  match here with
  | Some run => Some run
  | None =>
    match caption with
    | EmptyString => None
    | String _ caption' => search_set_group caption'
    end
  end.

(** [handle_set_group_image].  [seconds] is [int(time.time())] and
    [first_group_a] what [next(iter(GROUP_A_IDS))] yields.  [None] is
    the [NameError] of the branch for an empty [GROUP_A_IDS], which
    reads the global [GROUP_A_ID] that the module no longer defines. *)
Definition handle_set_group_image (config : Config) (seconds : Z)
    (first_group_a : Z) (update : PhotoUpdate) (s : State)
  : option (State * list Request) :=
  let chat_id := photo_chat_id update in
  let user_id := photo_user_id update in
  if decide (chat_id ∉ GROUP_B_IDS config) then Some (s, [])
  else if negb (is_group_admin user_id chat_id s)
          && negb (is_global_admin user_id s)
  then Some (s, [reply_text "只有群操作人可以设置图片。请联系管理员。"])
  else
    match photo update with
    | None => Some (s, [reply_text "请发送一张图片并备注'设置群 {number}'。"])
    | Some file_id =>
      match search_set_group (default EmptyString (caption update)) with
      | None => Some (s, [reply_text "请使用正确的格式：设置群 {number}"])
      | Some group_number =>
        let image_id := "img_" +:+ str_Z seconds in
        if decide (GROUP_A_IDS config = ∅) then None
        else
          let metadata : db.Metadata :=
            {[ "source_group_b_id" := db.MInt chat_id;
               "target_group_a_id" := db.MInt first_group_a ]} in
          let '(success, rows) :=
            db.add_image image_id (int_of_digits group_number) file_id
                         "open" (Some metadata) (images s) in
          if success then
            Some (with_images rows s,
                  [reply_text ("✅ 已设置群聊为" +:+ group_number +:+ "群")])
          else
            Some (s, [reply_text "设置图片失败，该图片可能已存在。请重试。"])
      end
    end.

End bot.

(** ** Sample data used by the examples below *)

Module sample.

(** Three open images created in the order 10, 20, 30, never allocated. *)
Definition fresh_table : list db.Row :=
  [ db.mkRow 1 "img_1" 10 "f1" "open" None (Some 0);
    db.mkRow 2 "img_2" 20 "f2" "open" None (Some 0);
    db.mkRow 3 "img_3" 30 "f3" "open" None (Some 0) ].

(** One closed slot with label 10, allocated for the amount 25 and shown
    as message 701 of room -2001; the request came from room -1001. *)
Definition entry : bot.MsgData :=
  bot.mkMsgData 501 (-1001) 701 (-2001) "img_1" "25" "10" 42 (Some 400) false.

Definition table : list db.Row :=
  [ db.mkRow 1 "img_1" 10 "file_1" "closed" None (Some 1) ].

Definition state : bot.State :=
  bot.mkState [("img_1", entry)] ∅ [] table true
              {[ 5962096701; 1844353808; 7997704196; 5965182828 ]} ∅.

Definition env : bot.Env := bot.mkEnv 1000 (fun _ _ => None) None.

(** A reply to message 701 in room -2001. *)
Definition reply_from (user : Z) (body : string) : bot.Update :=
  bot.mkUpdate (-2001) "supergroup" 702 body user "member"
               (Some (bot.mkReplied 701 None)).




(** Two closed slots.  The first was allocated for the amount 30 and has
    the label 25; the second, allocated later and shown in another room,
    was allocated for the amount 25 and has the label 7.  The target
    message of the first has the greater message id. *)
Definition first_entry : bot.MsgData :=
  bot.mkMsgData 501 (-1001) 900 (-2001) "img_1" "30" "25" 42 (Some 400) false.

Definition second_entry : bot.MsgData :=
  bot.mkMsgData 502 (-1001) 5 (-2002) "img_2" "25" "7" 43 (Some 401) false.

Definition two_slots : list db.Row :=
  [ db.mkRow 1 "img_1" 25 "file_1" "closed" None (Some 1);
    db.mkRow 2 "img_2" 7 "file_2" "closed" None (Some 2) ].

Definition two_entries : bot.State :=
  bot.mkState
    (bot.dict_set "img_2" second_entry (bot.dict_set "img_1" first_entry []))
    ∅ [] two_slots true
    {[ 5962096701; 1844353808; 7997704196; 5965182828 ]} ∅.




(** A message of room -2002 that replies to nothing. *)
Definition plain_message (body : string) : bot.Update :=
  bot.mkUpdate (-2002) "supergroup" 950 body 77 "member" None.

(** Two custom amounts await approval: message 900 of room -2001
    proposed 99 for the first slot at time 100, and message 5 of room
    -2002 proposed 99 for the second slot at time 200. *)
Definition older_approval : bot.Approval :=
  bot.mkApproval "img_1" "99" 81 "ann" 900 (Some 900) "+99" 100.

Definition newer_approval : bot.Approval :=
  bot.mkApproval "img_2" "99" 82 "bob" 5 (Some 5) "+99" 200.

Definition two_pending : bot.State :=
  bot.mkState
    (bot.dict_set "img_2" second_entry (bot.dict_set "img_1" first_entry []))
    ∅
    (bot.dict_set 5 newer_approval (bot.dict_set 900 older_approval []))
    two_slots false
    {[ 5962096701; 1844353808; 7997704196; 5965182828 ]} ∅.

(** The same two approvals when both come from one room, so that the
    later one has the greater message id. *)
Definition ordered_pending : list (Z * bot.Approval) :=
  [ (900, older_approval);
    (905, bot.mkApproval "img_2" "99" 82 "bob" 905 (Some 901) "+99" 200) ].

(** A global admin affirms in a private chat, as a reply or not. *)
Definition private_affirmation (reply : option bot.RepliedMessage)
  : bot.Update :=
  bot.mkUpdate 5962096701 "private" 30 "同意" 5962096701 "boss" reply.

(** A global admin affirms in room -2001 as a reply to message 900, whose
    text is ["+99"]. *)
Definition group_affirmation : bot.Update :=
  bot.mkUpdate (-2001) "supergroup" 960 "确认" 5962096701 "boss"
               (Some (bot.mkReplied 900 (Some "+99"))).

(** One open slot that belongs to room -2001. *)
Definition room_metadata : db.Metadata :=
  {[ "source_group_b_id" := db.MInt (-2001) ]}.

Definition gated_row (p : Z) : db.Row :=
  db.mkRow 1 "img_1" 10 "file_1" "open" (Some room_metadata) (Some p).

(** Draws of [random.randint(1, 100)]: 60 first, 40 afterwards. *)
Definition rolls_60_40 (k : nat) : Z :=
  match k with O => 60 | S _ => 40 end.

(** Two interpreters whose built-in [hash] differs on the image id. *)
Definition hash_of_run_1 (s : string) : Z := Z.of_nat (String.length s).
Definition hash_of_run_2 (s : string) : Z := Z.of_nat (String.length s) + 1.

Definition rooms : list Z := [-2001; -2002].

(** The first sample state with user 88 as a group admin of room -2001. *)
Definition state_with_group_admin : bot.State :=
  bot.mkState [("img_1", entry)] ∅ [] table true
              {[ 5962096701; 1844353808; 7997704196; 5965182828 ]}
              {[ -2001 := {[ 88 ]} ]}.

(** A global admin affirms in room -2001 as a reply to message 702. *)
Definition affirmation_of_702 : bot.Update :=
  bot.mkUpdate (-2001) "supergroup" 703 "同意" 5962096701 "boss"
               (Some (bot.mkReplied 702 (Some "99"))).

(** Room -1001 is a source room and room -2001 the only fulfillment
    room; no percentages. *)
Definition config : bot.Config := bot.mkConfig {[ -1001 ]} [-2001] ∅ ∅.


(** The photo becomes message 501, the forward message 701. *)
Definition runtime : bot.Runtime :=
  bot.mkRuntime (fun _ => 7) (fun _ => 50) 10 501 701.

(** Nothing tracked yet, the three images open. *)
Definition intake_state : bot.State :=
  bot.mkState [] ∅ [] fresh_table true {[ 5962096701 ]} ∅.

(** A request for 25 in room -1001. *)
Definition request : bot.Update :=
  bot.mkUpdate (-1001) "supergroup" 400 "25群" 42 "client" None.

(** An administrator of room -2001 registers a photo as image 12. *)
Definition registration : bot.PhotoUpdate :=
  bot.mkPhotoUpdate (-2001) 5962096701 (Some "file_12") (Some "设置群 12").

(** No image yet. *)
Definition empty_state : bot.State :=
  bot.mkState [] ∅ [] [] true {[ 5962096701 ]} ∅.

End sample.

(** * Properties *)

(** ** Round-robin allocation *)

Section queue_facts.
Import db.

Lemma strongly_sorted_lookup {A} (R : relation A) (l : list A) i j x y :
  StronglySorted R l -> l !! i = Some x -> l !! j = Some y ->
  (i < j)%nat -> R x y.
Proof.
  intros Hs. revert i j. induction Hs as [|a l Hs IH Hall]; intros i j Hi Hj Hlt.
  - discriminate.
  - destruct j as [|j]; [lia|]. destruct i as [|i]; simpl in *.
    + injection Hi as <-. rewrite Forall_forall in Hall.
      apply Hall. eapply list_elem_of_lookup_2; eassumption.
    + eapply IH; [eassumption..|lia].
Qed.

Lemma strongly_sorted_filter {A} (R : relation A) (P : A -> Prop)
    `{!forall x, Decision (P x)} (l : list A) :
  StronglySorted R l -> StronglySorted R (filter P l).
Proof.
  induction 1 as [|a l Hs IH Hall]; [constructor|].
  rewrite filter_cons. destruct (decide (P a)); [|assumption].
  constructor; [assumption|].
  rewrite Forall_forall in *. intros x [_ Hx]%list_elem_of_filter. auto.
Qed.

Lemma nodup_fmap_inj {A B} (f : A -> B) (l : list A) x y :
  NoDup (f <$> l) -> x ∈ l -> y ∈ l -> f x = f y -> x = y.
Proof.
  intros Hnd [i Hi]%list_elem_of_lookup [j Hj]%list_elem_of_lookup Hf.
  assert (i = j) as ->.
  { eapply NoDup_lookup; [exact Hnd| |].
    - rewrite list_lookup_fmap, Hi. reflexivity.
    - rewrite list_lookup_fmap, Hj. simpl. by rewrite Hf. }
  congruence.
Qed.

Lemma max_position_ub rows r : r ∈ rows -> qpos r <= max_position rows.
Proof.
  destruct rows as [|a rows]; [by intros ?%elem_of_nil|].
  simpl. revert a r. induction rows as [|b rows IH]; intros a r Hin; simpl.
  - apply list_elem_of_singleton in Hin as ->. lia.
  - apply elem_of_cons in Hin as [->|Hin].
    + specialize (IH a a (list_elem_of_here _ _)). lia.
    + apply elem_of_cons in Hin as [->|Hin]; [lia|].
      specialize (IH a r (list_elem_of_further _ _ _ Hin)). lia.
Qed.

Lemma max_position_attained rows :
  rows <> [] -> exists r, r ∈ rows /\ qpos r = max_position rows.
Proof.
  destruct rows as [|a rows]; [done|]. intros _. simpl.
  revert a. induction rows as [|b rows IH]; intros a; simpl.
  - exists a. split; [left|done].
  - destruct (IH a) as (r & Hin & Hr).
    destruct (Z.max_spec (qpos b)
                (foldr (fun r m => Z.max (qpos r) m) (qpos a) rows))
      as [[_ ->]|[_ ->]].
    + exists r. split; [|done].
      apply elem_of_cons in Hin as [->|Hin]; [left|do 2 right; done].
    + exists b. split; [right; left|done].
Qed.

(** One call, described through [start_index]. *)
Lemma allocator_step rows :
  open_rows rows <> [] ->
  exists next,
    open_rows rows !! start_index rows = Some next /\
    get_next_image_in_queue rows =
      (Some (image_of_row next),
       update_queue_position (max_position rows + 1) (image_id next) rows).
Proof.
  intros Hopen. unfold get_next_image_in_queue, start_index.
  destruct rows as [|r0 rows']; [done|].
  destruct (open_rows (r0 :: rows')) as [|first_open opens] eqn:Hop; [done|].
  destruct (decide (max_position (r0 :: rows') = 0)); [by exists first_open|].
  destruct (list_find _ (r0 :: rows')) as [[i last_sent]|]; [|by exists first_open].
  destruct (list_find _ (first_open :: opens)) as [[j row]|] eqn:Hfind;
    [|by exists first_open].
  exists row. split; [|done].
  by apply list_find_Some in Hfind as (? & _).
Qed.

Lemma update_queue_position_open p id rows :
  open_rows (update_queue_position p id rows) =
  update_queue_position p id (open_rows rows).
Proof.
  unfold open_rows, update_queue_position.
  induction rows as [|r rows IH]; [done|]. csimpl.
  rewrite !filter_cons, IH.
  destruct (decide (image_id r = id)); simpl;
    destruct (decide (status r = "open")); csimpl;
    try destruct (decide (image_id r = id)); done.
Qed.

Lemma update_queue_position_images p id rows :
  open_images (update_queue_position p id rows) = open_images rows.
Proof.
  unfold open_images. rewrite update_queue_position_open.
  unfold update_queue_position. rewrite <- list_fmap_compose.
  apply list_fmap_ext. intros _ r _. simpl.
  by destruct (decide (image_id r = id)).
Qed.

Lemma update_queue_position_wf p id rows :
  well_formed rows -> well_formed (update_queue_position p id rows).
Proof.
  intros [Hs Hnd]. unfold update_queue_position. split.
  - eapply StronglySorted_fmap; [|exact Hs].
    intros a b Hab. destruct (decide (image_id a = id));
      destruct (decide (image_id b = id)); exact Hab.
  - rewrite <- list_fmap_compose.
    erewrite list_fmap_ext; [exact Hnd|]. intros _ r _. simpl.
    by destruct (decide (image_id r = id)).
Qed.

Lemma update_queue_position_max rows next :
  next ∈ rows ->
  max_position (update_queue_position (max_position rows + 1)
                                      (image_id next) rows)
  = max_position rows + 1.
Proof.
  intros Hin. set (m := max_position rows).
  set (rows' := update_queue_position (m + 1) (image_id next) rows).
  assert (Hne : rows' <> []).
  { destruct rows; [by apply elem_of_nil in Hin|done]. }
  destruct (max_position_attained rows' Hne) as (r' & Hr' & Hq).
  assert (Hub : forall r, r ∈ rows' -> qpos r <= m + 1).
  { intros r (r0 & -> & Hr0)%list_elem_of_fmap.
    destruct (decide (image_id r0 = image_id next)); [done|].
    pose proof (max_position_ub rows r0 Hr0). unfold m. lia. }
  assert (Hin' : set_queue_position (m + 1) next ∈ rows').
  { apply list_elem_of_fmap. exists next. split; [|done].
    by rewrite decide_True. }
  pose proof (max_position_ub rows' _ Hin') as Hlb.
  pose proof (Hub r' Hr'). simpl in Hlb. unfold qpos in Hlb at 1. simpl in Hlb.
  lia.
Qed.

Lemma find_after_sorted (opens : list Row) j next :
  StronglySorted (fun a b => rowid a < rowid b) opens ->
  opens !! j = Some next ->
  list_find (fun row => rowid next < rowid row) opens
  = (fun x => (S j, x)) <$> opens !! S j.
Proof.
  intros Hs Hj.
  assert (Hbefore : forall k y, opens !! k = Some y -> (k < S j)%nat ->
                               ~ rowid next < rowid y).
  { intros k y Hk Hlt. destruct (decide (k = j)) as [->|Hne].
    - assert (y = next) as -> by congruence. lia.
    - assert (rowid y < rowid next); [|lia].
      apply (strongly_sorted_lookup (fun a b => rowid a < rowid b)
               opens k j y next); [done..|lia]. }
  destruct (opens !! S j) as [x|] eqn:Hx; simpl.
  - apply list_find_Some. split_and!; [done| |done].
    apply (strongly_sorted_lookup (fun a b => rowid a < rowid b)
             opens j (S j) next x); [done..|lia].
  - apply list_find_None, Forall_forall.
    intros y [k Hk]%list_elem_of_lookup. apply (Hbefore k y Hk).
    apply lookup_ge_None in Hx. apply lookup_lt_Some in Hk. lia.
Qed.

Lemma start_index_next rows j next :
  well_formed rows -> 0 <= max_position rows ->
  open_rows rows !! j = Some next ->
  start_index (update_queue_position (max_position rows + 1)
                                     (image_id next) rows)
  = if decide (S j < length (open_rows rows))%nat then S j else 0%nat.
Proof.
  intros [Hs Hnd] Hmax Hj.
  assert (Hin : next ∈ rows).
  { apply list_elem_of_lookup_2 in Hj.
    by apply list_elem_of_filter in Hj as [_ ?]. }
  unfold start_index. rewrite (update_queue_position_max rows next Hin).
  set (m := max_position rows) in *.
  set (rows' := update_queue_position (m + 1) (image_id next) rows).
  rewrite decide_False by lia.
  assert (Hin' : set_queue_position (m + 1) next ∈ rows').
  { apply list_elem_of_fmap. exists next. split; [|done].
    by rewrite decide_True. }
  destruct (list_find_elem_of (fun row => qpos row = m + 1) rows' _ Hin')
    as [[i last] Hfind]; [done|].
  rewrite Hfind.
  apply list_find_Some in Hfind as (Hi & Hq & _).
  assert (Hrow : rowid last = rowid next).
  { apply list_elem_of_lookup_2, list_elem_of_fmap in Hi as (r0 & -> & Hr0).
    destruct (decide (image_id r0 = image_id next)) as [Heq|Hne].
    - by rewrite (nodup_fmap_inj image_id rows r0 next Hnd Hr0 Hin Heq).
    - pose proof (max_position_ub rows r0 Hr0). fold m in H. lia. }
  unfold rows'. rewrite update_queue_position_open.
  unfold update_queue_position at 1. rewrite list_find_fmap.
  erewrite (list_find_ext _ (fun row => rowid next < rowid row)).
  2:{ intros r. simpl. rewrite Hrow.
      by destruct (decide (image_id r = image_id next)). }
  rewrite (find_after_sorted _ j next);
    [|by apply strongly_sorted_filter|done].
  destruct (open_rows rows !! S j) as [x|] eqn:Hx; simpl.
  - apply lookup_lt_Some in Hx. by rewrite decide_True.
  - apply lookup_ge_None in Hx. rewrite decide_False; [done|lia].
Qed.

Lemma db_after_S n rows :
  db_after (S n) rows = snd (get_next_image_in_queue (db_after n rows)).
Proof. revert rows. induction n as [|n IH]; intros rows; [done|]. apply IH. Qed.

Lemma mod_wrap (k i M : nat) :
  (k < M)%nat ->
  (((if decide (S k < M)%nat then S k else 0%nat) + i) mod M
   = (k + S i) mod M)%nat.
Proof.
  intros Hk. destruct (decide (S k < M)%nat); [f_equal; lia|].
  assert (k + S i = i + 1 * M)%nat as -> by lia.
  by rewrite Nat.Div0.mod_add.
Qed.

(** The invariants of the table along a run of allocator calls. *)
Lemma allocator_run n : forall rows,
  well_formed rows -> 0 <= max_position rows -> open_rows rows <> [] ->
  well_formed (db_after n rows) /\
  max_position (db_after n rows) = max_position rows + Z.of_nat n /\
  open_images (db_after n rows) = open_images rows /\
  length (open_rows (db_after n rows)) = length (open_rows rows) /\
  start_index (db_after n rows)
  = ((start_index rows + n) mod length (open_rows rows))%nat.
Proof.
  induction n as [|n IH]; intros rows Hwf Hmax Hopen.
  - destruct (allocator_step rows Hopen) as (next & Hnext & _).
    apply lookup_lt_Some in Hnext. simpl.
    rewrite Nat.add_0_r, Nat.mod_small by done.
    split_and!; [done|lia|done..].
  - destruct (allocator_step rows Hopen) as (next & Hnext & Hcall).
    assert (Hin : next ∈ rows).
    { apply list_elem_of_lookup_2 in Hnext.
      by apply list_elem_of_filter in Hnext as [_ ?]. }
    simpl. rewrite Hcall. simpl.
    set (rows1 := update_queue_position _ _ rows).
    assert (Hlen : length (open_rows rows1) = length (open_rows rows)).
    { unfold rows1. rewrite update_queue_position_open.
      unfold update_queue_position. by rewrite length_fmap. }
    assert (Hmax1 : max_position rows1 = max_position rows + 1)
      by by apply update_queue_position_max.
    destruct (IH rows1) as (Hwf' & Hmax' & Himg' & Hlen' & Hidx').
    { by apply update_queue_position_wf. }
    { lia. }
    { intros Hnil. rewrite Hnil in Hlen. simpl in Hlen.
      destruct (open_rows rows); [done|discriminate]. }
    split_and!.
    + done.
    + lia.
    + rewrite Himg'. apply update_queue_position_images.
    + lia.
    + rewrite Hidx', Hlen. unfold rows1.
      rewrite (start_index_next rows _ next Hwf Hmax Hnext).
      apply mod_wrap. by apply lookup_lt_Some in Hnext.
Qed.

(** Reading a list cyclically from position [k] lists its elements from
    [k] on, followed by those before [k]. *)
Lemma cyclic_reading {A} (l : list A) (k : nat) :
  (k < length l)%nat ->
  (fun i => l !! ((k + i) mod length l)%nat) <$> seq 0 (length l)
  = Some <$> (drop k l ++ take k l).
Proof.
  intros Hk. apply list_eq. intros i.
  rewrite !list_lookup_fmap.
  destruct (decide (i < length l)%nat) as [Hi|Hi].
  - rewrite lookup_seq_lt by done. simpl.
    destruct (decide (k + i < length l)%nat) as [Hlt|Hge].
    + rewrite Nat.mod_small by done.
      rewrite lookup_app_l by (rewrite length_drop; lia).
      rewrite lookup_drop.
      destruct (lookup_lt_is_Some_2 l (k + i)%nat Hlt) as [x Hx].
      by rewrite Hx.
    + assert (k + i = (k + i - length l) + 1 * length l)%nat as Heq by lia.
      rewrite Heq at 1. rewrite Nat.Div0.mod_add, Nat.mod_small by lia.
      rewrite lookup_app_r by (rewrite length_drop; lia).
      rewrite length_drop, lookup_take_lt by lia.
      replace (i - (length l - k))%nat with (k + i - length l)%nat by lia.
      destruct (lookup_lt_is_Some_2 l (k + i - length l)%nat) as [x Hx];
        [lia|].
      by rewrite Hx.
  - rewrite lookup_seq_ge by lia. simpl.
    rewrite lookup_ge_None_2; [done|].
    rewrite length_app, length_drop, length_take. lia.
Qed.

End queue_facts.

(** C1, as amended: on a table in [rowid] order with unique image ids, a
    non-negative maximum queue position and [M >= 1] open images, call
    number [i + 1] of [get_next_image_in_queue] returns the open image at
    position [(k + i) mod M] of the open images in creation order, where
    [k] is the position of the first open image created after the row
    holding the maximum queue position, and gives it the previous maximum
    queue position plus one.  So the first [M] calls return every open
    image once, in cyclic creation order from position [k], and call
    [M + 1] returns the image of the first call again. *)
Theorem round_robin_allocation (rows : list db.Row) :
  db.well_formed rows ->
  0 <= db.max_position rows ->
  db.open_rows rows <> [] ->
  let M := length (db.open_rows rows) in
  let k := db.start_index rows in
  (forall i, exists img,
      db.nth_call i rows = Some img /\
      db.open_images rows !! ((k + i) mod M)%nat = Some img /\
      db.db_after (S i) rows =
        db.update_queue_position (db.max_position (db.db_after i rows) + 1)
          (db.img_image_id img) (db.db_after i rows) /\
      db.max_position (db.db_after i rows)
        = db.max_position rows + Z.of_nat i) /\
  (fun i => db.nth_call i rows) <$> seq 0 M
    = Some <$> (drop k (db.open_images rows) ++ take k (db.open_images rows)) /\
  db.nth_call M rows = db.nth_call 0 rows.
Proof.
  intros Hwf Hmax Hopen M k.
  assert (Hk : (k < M)%nat).
  { destruct (allocator_step rows Hopen) as (next & Hnext & _).
    by apply lookup_lt_Some in Hnext. }
  assert (Hcall : forall i,
             db.nth_call i rows = db.open_images rows !! ((k + i) mod M)%nat /\
             exists img, db.nth_call i rows = Some img /\
               db.db_after (S i) rows =
                 db.update_queue_position
                   (db.max_position (db.db_after i rows) + 1)
                   (db.img_image_id img) (db.db_after i rows) /\
               db.max_position (db.db_after i rows)
                 = db.max_position rows + Z.of_nat i).
  { intros i.
    destruct (allocator_run i rows Hwf Hmax Hopen)
      as (_ & Hmax' & Himg' & Hlen' & Hidx').
    assert (Hopen' : db.open_rows (db.db_after i rows) <> []).
    { intros Hnil. rewrite Hnil in Hlen'. simpl in Hlen'.
      destruct (db.open_rows rows); [done|discriminate]. }
    destruct (allocator_step _ Hopen') as (next & Hnext & Hstep).
    unfold db.nth_call. rewrite db_after_S, Hstep. simpl. split.
    - rewrite <- Himg'. unfold db.open_images.
      rewrite list_lookup_fmap. fold M k in Hidx'. rewrite <- Hidx', Hnext.
      done.
    - exists (db.image_of_row next). by split_and!. }
  split_and!.
  - intros i. destruct (Hcall i) as (Hi & img & Himg & Hdb & Hmax').
    exists img. split_and!; [done| |done..]. by rewrite <- Hi.
  - unfold M, db.open_images at 1 2. rewrite <- cyclic_reading.
    2:{ unfold db.open_images. by rewrite length_fmap. }
    unfold db.open_images. rewrite length_fmap.
    apply list_fmap_ext. intros _ i _. apply (Hcall i).
  - rewrite (proj1 (Hcall M)), (proj1 (Hcall 0%nat)).
    f_equal. rewrite Nat.add_0_r.
    assert (k + M = k + 1 * M)%nat as -> by lia.
    by rewrite Nat.Div0.mod_add.
Qed.

Lemma round_robin_allocation_witness :
  db.nth_call 3 (db.db_after 5 sample.fresh_table)
  = db.nth_call 0 (db.db_after 5 sample.fresh_table).
Proof.
  refine (proj2 (proj2
    (round_robin_allocation (db.db_after 5 sample.fresh_table) _ _ _))).
  - unfold db.well_formed. apply (bool_decide_unpack _). vm_compute. exact I.
  - vm_compute. discriminate.
  - vm_compute. discriminate.
Defined.

(** C1, as stated, fails when the cycle does not start at the first open
    image: after five allocations from [sample.fresh_table] the queue positions
    are 4, 5, 3; the next three calls return the labels 30, 10, 20, and
    the fourth returns 30 again, not the first open image in creation
    order (label 10). *)
Lemma round_robin_counterexample :
  let rows := db.db_after 5 sample.fresh_table in
  db.qpos <$> rows = [4; 5; 3] /\
  length (db.open_rows rows) = 3%nat /\
  (fun i => db.img_number <$> db.nth_call i rows) <$> seq 0 3
    = [Some 30; Some 10; Some 20] /\
  db.nth_call 3 rows <> head (db.open_images rows).
Proof. vm_compute. split_and!; [done..|discriminate]. Qed.

(** ** The reconciler on replies to a tracked message *)

Section reply_facts.
Import bot.

Lemma status_of_set_image_status id new_status rows :
  db.status_of id (db.set_image_status id new_status rows)
  = (fun _ => new_status) <$> db.status_of id rows.
Proof.
  unfold db.status_of, db.get_image_by_id, db.set_image_status.
  rewrite list_find_fmap.
  erewrite (list_find_ext _ (fun row => db.image_id row = id)).
  2:{ intros row. simpl. by destruct (decide (db.image_id row = id)). }
  destruct (list_find _ rows) as [[i row]|] eqn:Hfind; [|done]. simpl.
  apply list_find_Some in Hfind as (_ & Hid & _).
  by rewrite decide_True.
Qed.




Lemma find_by_reply_untracked m entries :
  Forall (fun kv => group_b_msg_id kv.2 <> m) entries ->
  find_by_reply m entries = None.
Proof.
  intros Hnone. unfold find_by_reply.
  by rewrite (proj2 (list_find_None _ entries) Hnone).
Qed.

End reply_facts.

(** ** Confirm, label echo, unauthorized amount and no-show *)

Section reply_claims.
Import bot.













End reply_claims.

(** ** Percentage-gated allocation *)

Section gated_claims.

Lemma single_row_step p :
  db.get_next_image_in_queue [sample.gated_row p]
  = (Some (db.image_of_row (sample.gated_row 0)), [sample.gated_row (p + 1)]).
Proof.
  destruct (allocator_step [sample.gated_row p]) as (next & Hnext & ->).
  { vm_compute. discriminate. }
  apply list_elem_of_lookup_2 in Hnext.
  change (db.open_rows [sample.gated_row p]) with [sample.gated_row p] in Hnext.
  apply list_elem_of_singleton in Hnext as ->.
  reflexivity.
Qed.

Lemma room_metadata_lookup :
  sample.room_metadata !! "source_group_b_id" = Some (db.MInt (-2001)).
Proof. vm_compute. reflexivity. Qed.

(** With a percentage of 0 no draw can pass, and every nesting depth is
    used up on the single open slot. *)
Lemma gated_allocation_unbounded depth : forall rolls k p,
  (forall n, 1 <= rolls n) ->
  db.get_next_image_in_queue_with_percentage
    depth {[ -2001 := 0 ]} rolls k [sample.gated_row p] = None.
Proof.
  induction depth as [|depth IH]; intros rolls k p Hrolls; [done|].
  cbn [db.get_next_image_in_queue_with_percentage].
  rewrite single_row_step.
  rewrite decide_False by apply map_non_empty_singleton.
  change (default ∅ (db.img_metadata (db.image_of_row (sample.gated_row 0)))
            !! "source_group_b_id")
    with (sample.room_metadata !! "source_group_b_id").
  rewrite room_metadata_lookup, lookup_singleton_eq.
  rewrite decide_False by (specialize (Hrolls k); lia).
  by apply IH.
Qed.

(** C4 fails on the code.  With one open slot whose room has the
    percentage 50 and the draws 60, 40, the allocation rejects the slot,
    calls the allocator a second time and returns the same slot: two
    passes over one open slot, and no [None] although the only candidate
    was rejected.  With the percentage 0 the retries use up any nesting
    depth: nothing bounds them by the number of open slots. *)
Theorem gated_allocation_not_one_pass :
  length (db.open_rows [sample.gated_row 0]) = 1%nat /\
  db.get_next_image_in_queue_with_percentage
    3 {[ -2001 := 50 ]} sample.rolls_60_40 0 [sample.gated_row 0]
  = Some (Some (db.image_of_row (sample.gated_row 0)),
          db.db_after 2 [sample.gated_row 0], 2%nat) /\
  forall depth,
    db.get_next_image_in_queue_with_percentage
      depth {[ -2001 := 0 ]} sample.rolls_60_40 0 [sample.gated_row 0] = None.
Proof.
  split_and!.
  - vm_compute. reflexivity.
  - vm_compute. reflexivity.
  - intros depth. apply gated_allocation_unbounded.
    intros [|n]; simpl; lia.
Qed.

End gated_claims.

(** ** Room affinity *)

Section affinity_claims.
Import bot.

Lemma get_image_by_id_update_metadata id md rows :
  db.get_image_by_id id (db.update_image_metadata id md rows)
  = (fun image => db.mkImage (db.img_image_id image) (db.img_number image)
                    (db.img_file_id image) (db.img_status image)
                    None (Some md))
    <$> db.get_image_by_id id rows.
Proof.
  unfold db.get_image_by_id, db.update_image_metadata.
  rewrite list_find_fmap.
  erewrite (list_find_ext _ (fun row => db.image_id row = id)).
  2:{ intros row. simpl. by destruct (decide (db.image_id row = id)). }
  destruct (list_find _ rows) as [[i row]|] eqn:Hfind; [|done]. simpl.
  apply list_find_Some in Hfind as (_ & Hid & _).
  by rewrite decide_True.
Qed.

Lemma get_image_by_id_id id rows image :
  db.get_image_by_id id rows = Some image -> db.img_image_id image = id.
Proof.
  unfold db.get_image_by_id.
  destruct (list_find _ rows) as [[i row]|] eqn:Hfind; [|done].
  intros [= <-]. by apply list_find_Some in Hfind as (_ & Hid & _).
Qed.

(** Affinity once persisted: for a slot stored in the table, once a
    resolution has returned a room, every later resolution that reads
    the slot back returns the same room and leaves the table as it is,
    whatever the interpreter's [hash] then is and in whatever order the
    configured rooms are then listed (so also after a restart), as long
    as the set of configured rooms is the same.  The stability comes
    from the room persisted in the slot's metadata. *)
Theorem affinity_stable_once_persisted
    (hash_first hash_later : string -> Z) (rooms_first rooms_later : list Z)
    (img_id : string) (rows rows1 : list db.Row) (room : Z) :
  (forall g, g ∈ rooms_first <-> g ∈ rooms_later) ->
  group_b_for_stored_image hash_first rooms_first img_id rows
    = (Some room, rows1) ->
  group_b_for_stored_image hash_later rooms_later img_id rows1
    = (Some room, rows1).
Proof.
  intros Hsame. unfold group_b_for_stored_image.
  destruct (db.get_image_by_id img_id rows) as [image|] eqn:Himage; [|done].
  rewrite (get_image_by_id_id _ _ _ Himage).
  unfold get_group_b_for_image at 1.
  destruct (default ∅ (db.img_metadata image) !! "source_group_b_id")
    as [[g|]|] eqn:Hmd.
  1: destruct (decide (g ∈ rooms_first)) as [Hg|Hg].
  1:{ intros [= <- <-]. rewrite Himage.
      rewrite (get_image_by_id_id _ _ _ Himage).
      unfold get_group_b_for_image. rewrite Hmd.
      rewrite decide_True; [done|]. by apply Hsame. }
  all: destruct rooms_first as [|g0 gs] eqn:HG; [done|].
  all: rewrite <- HG in *.
  all: destruct (rooms_first !! _) as [target|] eqn:Htarget; [|done].
  all: intros [= <- <-].
  all: rewrite get_image_by_id_update_metadata, Himage; simpl.
  all: unfold get_group_b_for_image; simpl.
  all: rewrite lookup_insert_eq.
  all: rewrite decide_True; [done|].
  all: apply Hsame; eapply list_elem_of_lookup_2; exact Htarget.
Qed.

Lemma affinity_stable_once_persisted_witness :
  group_b_for_stored_image sample.hash_of_run_2 sample.rooms "img_1"
    (group_b_for_stored_image sample.hash_of_run_1 sample.rooms "img_1"
       sample.table).2
  = (Some (-2002),
     (group_b_for_stored_image sample.hash_of_run_1 sample.rooms "img_1"
        sample.table).2).
Proof.
  apply (affinity_stable_once_persisted sample.hash_of_run_1
           sample.hash_of_run_2 sample.rooms sample.rooms "img_1"
           sample.table).
  - intros g. reflexivity.
  - vm_compute. reflexivity.
Defined.

(** C3 fails on the code.  The room of a slot that carries no stored
    room is computed from the interpreter's built-in [hash] of the slot
    id, which is not content-stable: two interpreters whose [hash] of the
    id differs modulo the number of rooms resolve the same slot, over
    the same configured rooms and the same table, to different rooms. *)
Theorem affinity_follows_runtime_hash (hash1 hash2 : string -> Z)
    (rooms : list Z) (img_id : string) (rows : list db.Row) :
  NoDup rooms ->
  rooms <> [] ->
  Z.abs (hash1 img_id) mod Z.of_nat (length rooms)
  <> Z.abs (hash2 img_id) mod Z.of_nat (length rooms) ->
  exists room1 room2,
    (get_group_b_for_image hash1 rooms img_id None rows).1 = Some room1 /\
    (get_group_b_for_image hash2 rooms img_id None rows).1 = Some room2 /\
    room1 <> room2.
Proof.
  intros Hnd Hne Hdiffer.
  assert (Hlen : 0 < Z.of_nat (length rooms)).
  { destruct rooms; [done|]. simpl. lia. }
  assert (Hresolve : forall hash,
            exists room,
              rooms !! Z.to_nat (Z.abs (hash img_id)
                                 mod Z.of_nat (length rooms)) = Some room /\
              (get_group_b_for_image hash rooms img_id None rows).1
              = Some room).
  { intros hash.
    destruct (lookup_lt_is_Some_2 rooms
                (Z.to_nat (Z.abs (hash img_id) mod Z.of_nat (length rooms))))
      as [room Hroom].
    { pose proof (Z.mod_pos_bound (Z.abs (hash img_id))
                    (Z.of_nat (length rooms)) Hlen). lia. }
    exists room. split; [done|]. unfold get_group_b_for_image.
    destruct rooms as [|room0 rooms0] eqn:Hrooms; [done|].
    rewrite <- Hrooms in *. by rewrite Hroom. }
  destruct (Hresolve hash1) as (room1 & Hlookup1 & Hroom1).
  destruct (Hresolve hash2) as (room2 & Hlookup2 & Hroom2).
  exists room1, room2. split_and!; [done..|].
  intros <-. apply Hdiffer.
  pose proof (NoDup_lookup _ _ _ _ Hnd Hlookup1 Hlookup2) as Hsame.
  pose proof (Z.mod_pos_bound (Z.abs (hash1 img_id))
                (Z.of_nat (length rooms)) Hlen).
  pose proof (Z.mod_pos_bound (Z.abs (hash2 img_id))
                (Z.of_nat (length rooms)) Hlen).
  lia.
Qed.

Lemma affinity_follows_runtime_hash_witness :
  exists room1 room2,
    (get_group_b_for_image sample.hash_of_run_1 sample.rooms "img_1" None
                           sample.table).1 = Some room1 /\
    (get_group_b_for_image sample.hash_of_run_2 sample.rooms "img_1" None
                           sample.table).1 = Some room2 /\
    room1 <> room2.
Proof.
  apply (affinity_follows_runtime_hash sample.hash_of_run_1
           sample.hash_of_run_2 sample.rooms "img_1" sample.table).
  - apply (bool_decide_unpack _). vm_compute. exact I.
  - discriminate.
  - vm_compute. discriminate.
Defined.

End affinity_claims.

(** ** Matching of messages that reply to no tracked message *)

Section unlinked_claims.
Import bot.

(** C6, as amended: a message that does not reply to a tracked target
    message -- it replies to nothing, or to a message whose id is the
    target message id of no tracked entry -- is ignored by the
    reconciler, whatever numbers its text carries: the state is unchanged
    and no request is issued. *)
Theorem unlinked_matching env update s :
  (forall replied,
     reply_to_message update = Some replied ->
     Forall (fun kv => group_b_msg_id kv.2 <> replied_message_id replied)
            (forwarded_msgs s)) ->
  handle_all_group_b_messages env update s = (s, []).
Proof.
  intros Huntracked. unfold handle_all_group_b_messages.
  destruct (decide (strip (text update) = EmptyString)); [done|].
  destruct (reply_to_message update) as [replied|];
    [|by destruct (bool_decide _)].
  rewrite (find_by_reply_untracked _ _ (Huntracked replied eq_refl)).
  by destruct (bool_decide _).
Qed.

Lemma unlinked_matching_witness :
  handle_all_group_b_messages sample.env (sample.plain_message "25")
                              sample.two_entries
  = (sample.two_entries, []).
Proof.
  apply (unlinked_matching sample.env (sample.plain_message "25")
           sample.two_entries).
  intros replied Hreplied. vm_compute in Hreplied. discriminate.
Defined.

(** C6, as stated, fails: a message of the room that replies to nothing
    and carries the number 25, the expected amount of a tracked entry,
    and a message that carries exactly one number, are matched to no
    entry: the state is unchanged and no request is issued. *)
Lemma unlinked_matching_counterexample :
  ("img_2", sample.second_entry) ∈ forwarded_msgs sample.two_entries /\
  amount sample.second_entry = "25" /\
  reply_to_message (sample.plain_message "25") = None /\
  findall_digits "25" = ["25"] /\
  handle_all_group_b_messages sample.env (sample.plain_message "25")
                              sample.two_entries
  = (sample.two_entries, []) /\
  findall_digits "+99" = ["99"] /\
  handle_all_group_b_messages sample.env (sample.plain_message "+99")
                              sample.two_entries
  = (sample.two_entries, []).
Proof. vm_compute. split_and!; try done. right. left. Qed.

End unlinked_claims.

(** ** The approval workflow *)

Section approval_claims.
Import bot.

Lemma dict_get_elem {V} (k : Z) (d : list (Z * V)) v :
  dict_get k d = Some v -> (k, v) ∈ d.
Proof.
  unfold dict_get.
  destruct (list_find _ d) as [[i [k' v']]|] eqn:Hfind; [|done].
  intros [= <-]. apply list_find_Some in Hfind as (Hi & Hk & _).
  simpl in Hk. subst k'. by eapply list_elem_of_lookup_2.
Qed.

Lemma dict_get_is_Some {V} (k : Z) (d : list (Z * V)) v :
  (k, v) ∈ d -> is_Some (dict_get k d).
Proof.
  intros Hin. unfold dict_get.
  destruct (list_find_elem_of (fun kv : Z * V => kv.1 = k) d (k, v) Hin)
    as [[i [k' v']] ->]; [done|]. by eexists.
Qed.

Lemma dict_get_del {V} (k : Z) (d : list (Z * V)) :
  dict_get k (dict_del k d) = None.
Proof.
  unfold dict_get, dict_del.
  rewrite (proj2 (list_find_None (fun kv : Z * V => kv.1 = k) _)); [done|].
  apply Forall_forall. by intros kv [? _]%list_elem_of_filter.
Qed.

Lemma max_key_spec (k : Z) (a : Approval) (rest : list (Z * Approval)) :
  (exists a', (max_key k rest, a') ∈ (k, a) :: rest) /\
  Forall (fun kv => kv.1 <= max_key k rest) ((k, a) :: rest).
Proof.
  induction rest as [|[k1 a1] rest [(a' & Hin) Hall]]; simpl.
  - split; [exists a; left|]. constructor; [simpl; lia|constructor].
  - apply Forall_cons in Hall as [Hk Hall]. simpl in Hk.
    destruct (Z.max_spec k1 (max_key k rest)) as [[Hlt Hmax]|[Hle Hmax]];
      unfold max_key in *; rewrite Hmax; split.
    + exists a'. apply elem_of_cons in Hin as [Heq|Hin].
      * rewrite Heq. left.
      * do 2 right. done.
    + constructor; [done|]. constructor; [simpl; lia|done].
    + exists a1. right. left.
    + constructor; [simpl; lia|]. constructor; [simpl; lia|].
      eapply Forall_impl; [exact Hall|]. simpl. intros; lia.
Qed.

(** C9, as amended: when a global approver sends an affirmation token in
    a private chat as a reply to a message, some approval is pending, and
    the ids of the pending approvals grow with their creation times, the
    approval handed to [process_custom_amount_approval] is a most
    recently created one. *)
Theorem private_approval_picks_newest env update s replied :
  is_global_admin (user_id update) s = true ->
  reply_to_message update = Some replied ->
  contains "同意" (text update) || contains "确认" (text update) = true ->
  chat_type update = "private" ->
  pending_custom_amounts s <> [] ->
  (forall k1 a1 k2 a2,
      (k1, a1) ∈ pending_custom_amounts s ->
      (k2, a2) ∈ pending_custom_amounts s ->
      pa_timestamp a1 < pa_timestamp a2 -> k1 < k2) ->
  exists msg_id approval,
    (msg_id, approval) ∈ pending_custom_amounts s /\
    Forall (fun kv => pa_timestamp kv.2 <= pa_timestamp approval)
           (pending_custom_amounts s) /\
    handle_custom_amount_approval env update s
    = process_custom_amount_approval env update msg_id approval s.
Proof.
  intros Hadmin Hreply Htoken Hprivate Hpending Hmono.
  unfold handle_custom_amount_approval.
  rewrite Hadmin, Hreply, Htoken. simpl. rewrite decide_True by done.
  destruct (pending_custom_amounts s) as [|[k a] rest] eqn:Hp; [done|].
  destruct (max_key_spec k a rest) as [(a' & Hin) Hmax].
  destruct (dict_get_is_Some _ _ _ Hin) as [approval Hget].
  rewrite Hget. exists (max_key k rest), approval.
  pose proof (dict_get_elem _ _ _ Hget) as Hin'.
  split_and!; [done| |done].
  rewrite Forall_forall in Hmax. apply Forall_forall. intros [k2 a2] Hin2.
  simpl. destruct (decide (pa_timestamp approval < pa_timestamp a2)) as [Hlt|];
    [|lia].
  specialize (Hmono _ _ _ _ Hin' Hin2 Hlt).
  specialize (Hmax _ Hin2). simpl in Hmax. lia.
Qed.

Lemma private_approval_picks_newest_witness :
  exists msg_id approval,
    (msg_id, approval) ∈ sample.ordered_pending /\
    Forall (fun kv => pa_timestamp kv.2 <= pa_timestamp approval)
           sample.ordered_pending /\
    handle_custom_amount_approval sample.env
      (sample.private_affirmation (Some (mkReplied 29 None)))
      (with_pending sample.ordered_pending sample.two_pending)
    = process_custom_amount_approval sample.env
        (sample.private_affirmation (Some (mkReplied 29 None)))
        msg_id approval
        (with_pending sample.ordered_pending sample.two_pending).
Proof.
  apply (private_approval_picks_newest sample.env
           (sample.private_affirmation (Some (mkReplied 29 None)))
           (with_pending sample.ordered_pending sample.two_pending)
           (mkReplied 29 None)).
  - vm_compute. reflexivity.
  - reflexivity.
  - vm_compute. reflexivity.
  - reflexivity.
  - discriminate.
  - intros k1 a1 k2 a2 Hin1 Hin2. cbn in Hin1, Hin2.
    apply elem_of_cons in Hin1 as [Hin1|Hin1%list_elem_of_singleton];
      apply elem_of_cons in Hin2 as [Hin2|Hin2%list_elem_of_singleton];
      injection Hin1 as -> ->; injection Hin2 as -> ->; cbn; lia.
Defined.

(** C9, as stated, fails.  An affirmation that is not a reply resolves
    nothing, although approvals are pending.  And with the approval of
    message 900 created at time 100 and the approval of message 5 of
    another room created later, at time 200, a replied affirmation in a
    private chat resolves the approval with the greater id, 900, the
    older one: the first slot is reopened and the newer approval stays
    pending. *)
Lemma private_approval_counterexample :
  pending_custom_amounts sample.two_pending
    = [(900, sample.older_approval); (5, sample.newer_approval)] /\
  handle_custom_amount_approval sample.env (sample.private_affirmation None)
                                sample.two_pending
    = (sample.two_pending, []) /\
  pa_timestamp sample.older_approval < pa_timestamp sample.newer_approval /\
  let s' := (handle_custom_amount_approval sample.env
               (sample.private_affirmation (Some (mkReplied 29 None)))
               sample.two_pending).1 in
  pending_custom_amounts s' = [(5, sample.newer_approval)] /\
  db.status <$> images s' = ["open"; "closed"].
Proof. vm_compute. split_and!; done. Qed.

(** C5, as amended: when a global approver affirms, in a shared room, as
    a reply to the message that carried a pending custom amount, the slot
    is tracked, and the relay is delivered or forwarding is off, the
    resolution reopens the slot and removes exactly that pending entry.
    A later affirmation replying to the same message finds nothing under
    that id; when no remaining pending approval matches the replied
    message by its stored message ids or by containing its [+amount], the
    later attempt leaves the state as it is and only replies that no
    pending record was found. *)
Theorem approval_resolution_one_shot env update s replied approval msg_data :
  is_global_admin (user_id update) s = true ->
  reply_to_message update = Some replied ->
  contains "同意" (text update) || contains "确认" (text update) = true ->
  chat_type update <> "private" ->
  dict_get (replied_message_id replied) (pending_custom_amounts s)
    = Some approval ->
  dict_get (pa_img_id approval) (forwarded_msgs s) = Some msg_data ->
  FORWARDING_ENABLED s = false \/ relay_error env = None ->
  let m := replied_message_id replied in
  let s1 := (handle_custom_amount_approval env update s).1 in
  pending_custom_amounts s1 = dict_del m (pending_custom_amounts s) /\
  dict_get m (pending_custom_amounts s1) = None /\
  db.status_of (pa_img_id approval) (images s1)
    = (fun _ => "open") <$> db.status_of (pa_img_id approval) (images s) /\
  forall env2 update2 replied2,
    is_global_admin (user_id update2) s1 = true ->
    reply_to_message update2 = Some replied2 ->
    replied_message_id replied2 = m ->
    contains "同意" (text update2) || contains "确认" (text update2) = true ->
    chat_type update2 <> "private" ->
    Forall (fun kv =>
              pa_original_msg_id kv.2 <> m /\
              pa_reply_to_msg_id kv.2 <> Some m /\
              contains ("+" +:+ pa_amount kv.2)
                       (default EmptyString (replied_text replied2)) = false)
           (pending_custom_amounts s1) ->
    handle_custom_amount_approval env2 update2 s1
    = (s1, [reply_text not_found_notice]).
Proof.
  intros Hadmin Hreply Htoken Hgroup Hget Hmsg Hrelay m s1.
  assert (Hs1 : pending_custom_amounts s1
                = dict_del m (pending_custom_amounts s) /\
                images s1
                = db.set_image_status (pa_img_id approval) "open" (images s)).
  { unfold s1, handle_custom_amount_approval.
    rewrite Hadmin, Hreply, Htoken. simpl.
    rewrite decide_False by done. fold m. fold m in Hget. rewrite Hget.
    unfold process_custom_amount_approval. rewrite Hmsg.
    assert ((if FORWARDING_ENABLED s then relay_error env else None) = None)
      as -> by (destruct Hrelay as [-> | ->]; [done|by destruct (FORWARDING_ENABLED s)]).
    done. }
  destruct Hs1 as [Hpending Himages].
  split_and!.
  - done.
  - rewrite Hpending. apply dict_get_del.
  - rewrite Himages. apply status_of_set_image_status.
  - intros env2 update2 replied2 Hadmin2 Hreply2 Hsame Htoken2 Hgroup2 Hnone.
    unfold handle_custom_amount_approval.
    rewrite Hadmin2, Hreply2, Htoken2. simpl.
    rewrite decide_False by done. rewrite Hsame.
    rewrite Hpending at 1. rewrite dict_get_del.
    rewrite (proj2 (list_find_None _ (pending_custom_amounts s1))).
    2:{ eapply Forall_impl; [exact Hnone|]. simpl. intros kv (? & ? & _). tauto. }
    rewrite (proj2 (list_find_None _ (pending_custom_amounts s1))); [done|].
    eapply Forall_impl; [exact Hnone|]. simpl. intros kv (_ & _ & Hc).
    by rewrite Hc.
Qed.

Lemma approval_resolution_one_shot_witness :
  dict_get 900
    (pending_custom_amounts
       (handle_custom_amount_approval sample.env sample.group_affirmation
          sample.two_pending).1)
  = None.
Proof.
  refine (proj1 (proj2
    (approval_resolution_one_shot sample.env sample.group_affirmation
       sample.two_pending (mkReplied 900 (Some "+99")) sample.older_approval
       sample.first_entry _ _ _ _ _ _ _))).
  - vm_compute. reflexivity.
  - reflexivity.
  - vm_compute. reflexivity.
  - vm_compute. discriminate.
  - vm_compute. reflexivity.
  - vm_compute. reflexivity.
  - left. reflexivity.
Defined.

(** C5, as stated, fails: with two pending approvals that both propose
    99, the first affirmation replying to message 900 resolves the
    approval of message 900; a second affirmation replying to the same
    message does not answer that nothing was found but resolves the other
    approval, whose [+99] the replied text contains, and reopens the
    second slot. *)
Lemma approval_resolution_counterexample :
  let s1 := (handle_custom_amount_approval sample.env sample.group_affirmation
               sample.two_pending).1 in
  let second := handle_custom_amount_approval sample.env
                  sample.group_affirmation s1 in
  fst <$> pending_custom_amounts sample.two_pending = [900; 5] /\
  fst <$> pending_custom_amounts s1 = [5] /\
  db.status <$> images s1 = ["open"; "closed"] /\
  fst <$> pending_custom_amounts second.1 = [] /\
  db.status <$> images second.1 = ["open"; "open"] /\
  second.2 = [reply_text "✅ 金额确认修改：+99"].
Proof. vm_compute. split_and!; done. Qed.

End approval_claims.

(** ** Scenarios of the specification *)

Section scenarios.
Import bot.

(** Three open slots created with the labels 10, 20, 30 and no
    percentages: successive allocations return 10, 20, 30 and then 10
    again. *)
Example scenario_three_slots :
  (fun i => db.img_number <$> db.nth_call i sample.fresh_table) <$> seq 0 4
  = [Some 10; Some 20; Some 30; Some 10].
Proof. vm_compute. reflexivity. Qed.

(** No open image: the allocator returns nothing and leaves the table as
    it is. *)
Example scenario_no_open_image :
  db.get_next_image_in_queue sample.table = (None, sample.table).
Proof. vm_compute. reflexivity. Qed.

(** A group admin replies ["99"] to the target message of a slot that
    expects 25: a pending approval keyed by the reply's message id is
    created and the slot stays closed.  A global admin then affirms as a
    reply to that message: the slot is reopened, the source room receives
    ["+99"], and the pending approval is gone. *)
Example scenario_custom_amount_approved :
  let proposed :=
    handle_all_group_b_messages sample.env (sample.reply_from 88 "99")
                                sample.state_with_group_admin in
  let resolved :=
    handle_custom_amount_approval sample.env sample.affirmation_of_702
                                  proposed.1 in
  fst <$> pending_custom_amounts proposed.1 = [702] /\
  db.status_of "img_1" (images proposed.1) = Some "closed" /\
  pending_custom_amounts resolved.1 = [] /\
  db.status_of "img_1" (images resolved.1) = Some "open" /\
  resolved.2 = [send_message (-1001) "+99" (Some 400);
                reply_text "✅ 金额确认修改：+99"].
Proof. vm_compute. split_and!; reflexivity. Qed.

End scenarios.

(** ** The other operations on the table *)

Section table_facts.
Import db.

Lemma next_rowid_gt rows r : r ∈ rows -> rowid r < next_rowid rows.
Proof.
  destruct rows as [|a rows]; [by intros ?%elem_of_nil|].
  simpl. revert a r. induction rows as [|b rows IH]; intros a r Hin; simpl.
  - apply list_elem_of_singleton in Hin as ->. lia.
  - apply elem_of_cons in Hin as [->|Hin].
    + specialize (IH a a (list_elem_of_here _ _)). lia.
    + apply elem_of_cons in Hin as [->|Hin]; [lia|].
      specialize (IH a r (list_elem_of_further _ _ _ Hin)). lia.
Qed.

Lemma get_image_by_id_None id rows :
  get_image_by_id id rows = None <-> id ∉ image_id <$> rows.
Proof.
  unfold get_image_by_id. rewrite fmap_None, list_find_None, Forall_forall.
  rewrite list_elem_of_fmap. split.
  - intros H (row & -> & Hin). by apply (H row).
  - intros H row Hin Hid. apply H. by exists row.
Qed.

Lemma get_image_by_id_elem id rows row :
  NoDup (image_id <$> rows) -> row ∈ rows -> image_id row = id ->
  get_image_by_id id rows = Some (plain_image row).
Proof.
  intros Hnd Hin Hid. unfold get_image_by_id.
  destruct (list_find_elem_of (fun r => image_id r = id) rows row Hin Hid)
    as [[i row'] Hfind].
  rewrite Hfind. simpl.
  apply list_find_Some in Hfind as (Hi & Hid' & _).
  apply list_elem_of_lookup_2 in Hi.
  rewrite (nodup_fmap_inj image_id rows row' row Hnd Hi Hin); [done|].
  congruence.
Qed.

(** [add_image] refuses an id that is stored and changes nothing then;
    otherwise, for a number that fits an SQLite integer, it appends a row that reads back as given, leaves every
    other image as it was, keeps the table well formed, and puts the new
    image last in creation order, so last among the open ones. *)
Theorem add_image_spec id label file new_status md rows :
  well_formed rows ->
  -9223372036854775808 <= label < 9223372036854775808 ->
  match get_image_by_id id rows with
  | Some _ => add_image id label file new_status md rows = (false, rows)
  | None =>
    exists row,
      add_image id label file new_status md rows = (true, rows ++ [row]) /\
      well_formed (rows ++ [row]) /\
      get_image_by_id id (rows ++ [row])
        = Some (mkImage id label file new_status None md) /\
      (forall id', id' <> id ->
         get_image_by_id id' (rows ++ [row]) = get_image_by_id id' rows) /\
      open_rows (rows ++ [row])
        = open_rows rows ++ (if decide (new_status = "open") then [row] else [])
  end.
Proof.
  intros [Hs Hnd] Hfits. unfold add_image, get_image_by_id.
  destruct (list_find (fun row => image_id row = id) rows) as [[i r]|] eqn:Hfind;
    [done|]. rewrite decide_True by done. simpl.
  set (row := mkRow (next_rowid rows) id label file new_status md (Some 0)).
  exists row. split_and!.
  - done.
  - split.
    + apply StronglySorted_app_2; [|done|repeat constructor].
      intros x1 x2 Hx1 ->%list_elem_of_singleton. simpl.
      by apply next_rowid_gt.
    + rewrite fmap_app. apply NoDup_app. split_and!; [done| |].
      * intros x Hx Hx'. change (image_id <$> [row]) with [id] in Hx'.
        apply list_elem_of_singleton in Hx' as ->.
        revert Hx. apply get_image_by_id_None.
        unfold get_image_by_id. by rewrite Hfind.
      * simpl. apply NoDup_singleton.
  - rewrite list_find_app_r by done. simpl. by rewrite decide_True.
  - intros id' Hne.
    destruct (list_find (fun r => image_id r = id') rows) as [[j r']|] eqn:Hf'.
    + by rewrite (list_find_app_l _ _ _ _ _ Hf').
    + rewrite list_find_app_r by done. simpl. by rewrite decide_False.
  - unfold open_rows. rewrite filter_app. by f_equal.
Qed.

Lemma add_image_spec_witness :
  (add_image "img_4" 40 "f4" "open" None sample.fresh_table).1 = true.
Proof.
  pose proof (add_image_spec "img_4" 40 "f4" "open" None sample.fresh_table)
    as H.
  change (get_image_by_id "img_4" sample.fresh_table) with (@None Image) in H.
  destruct H as (row & -> & _).
  - unfold well_formed. apply (bool_decide_unpack _). vm_compute. exact I.
  - lia.
  - reflexivity.
Defined.

Lemma set_image_status_other id id' new_status rows :
  id' <> id ->
  get_image_by_id id' (set_image_status id new_status rows)
  = get_image_by_id id' rows.
Proof.
  intros Hne. unfold get_image_by_id, set_image_status.
  rewrite list_find_fmap.
  erewrite (list_find_ext _ (fun row => image_id row = id')).
  2:{ intros row. simpl. by destruct (decide (image_id row = id)). }
  destruct (list_find _ rows) as [[i row]|] eqn:Hfind; [|done]. simpl.
  apply list_find_Some in Hfind as (_ & Hid & _).
  rewrite decide_False by congruence. done.
Qed.

Lemma set_image_status_positions id new_status rows :
  (fun row => (rowid row, image_id row, queue_position row))
    <$> set_image_status id new_status rows
  = (fun row => (rowid row, image_id row, queue_position row)) <$> rows.
Proof.
  unfold set_image_status. rewrite <- list_fmap_compose.
  apply list_fmap_ext. intros _ row _. simpl.
  by destruct (decide (image_id row = id)).
Qed.

(** [set_image_status] changes the status of the named image and nothing
    else: the image reads back with the new status, every other image
    reads back as before, row ids, image ids and queue positions stay,
    and naming an image that is not stored leaves the table as it is. *)
Theorem set_image_status_spec id new_status rows :
  status_of id (set_image_status id new_status rows)
    = (fun _ => new_status) <$> status_of id rows /\
  (forall id', id' <> id ->
     get_image_by_id id' (set_image_status id new_status rows)
     = get_image_by_id id' rows) /\
  (fun row => (rowid row, image_id row, queue_position row))
    <$> set_image_status id new_status rows
  = (fun row => (rowid row, image_id row, queue_position row)) <$> rows /\
  (get_image_by_id id rows = None ->
   set_image_status id new_status rows = rows).
Proof.
  split_and!.
  - apply status_of_set_image_status.
  - intros id'. apply set_image_status_other.
  - apply set_image_status_positions.
  - intros Hnone%get_image_by_id_None. unfold set_image_status.
    rewrite <- (list_fmap_id rows) at 2. apply list_fmap_ext.
    intros _ row Hrow%list_elem_of_lookup_2. simpl.
    rewrite decide_False; [done|]. intros Hid. apply Hnone.
    apply list_elem_of_fmap. by exists row.
Qed.

(** Reopening a stored closed image moves exactly one image from the
    closed count to the open count of [count_images_by_status]. *)
Theorem reopen_moves_one_count id rows :
  NoDup (image_id <$> rows) ->
  status_of id rows = Some "closed" ->
  let before := count_images_by_status rows in
  count_images_by_status (set_image_status id "open" rows)
  = (S before.1, Nat.pred before.2) /\ (0 < before.2)%nat.
Proof.
  intros Hnd Hst. unfold status_of, get_image_by_id in Hst.
  destruct (list_find _ rows) as [[i row]|] eqn:Hfind; [|done].
  injection Hst as Hst. simpl in Hst.
  apply list_find_Some in Hfind as (Hi & Hid & _).
  apply list_elem_of_lookup_2, list_elem_of_split in Hi as (l1 & l2 & ->).
  rewrite fmap_app, fmap_cons in Hnd.
  apply NoDup_app in Hnd as (_ & Hl1 & Hnd).
  apply NoDup_cons in Hnd as [Hl2 _].
  assert (Hsame : forall l, image_id row ∉ image_id <$> l ->
                    set_image_status id "open" l = l).
  { intros l Hl. unfold set_image_status.
    rewrite <- (list_fmap_id l) at 2. apply list_fmap_ext.
    intros _ r Hr%list_elem_of_lookup_2. simpl.
    rewrite decide_False; [done|]. intros Heq. apply Hl.
    apply list_elem_of_fmap. exists r. split; [congruence|done]. }
  assert (Hl1' : image_id row ∉ image_id <$> l1).
  { intros Hin. apply (Hl1 _ Hin). left. }
  unfold count_images_by_status. simpl.
  unfold set_image_status. rewrite fmap_app, fmap_cons.
  fold (set_image_status id "open" l1). fold (set_image_status id "open" l2).
  rewrite (Hsame l1 Hl1'), (Hsame l2 Hl2), decide_True by done.
  rewrite !filter_app, !filter_cons, !length_app. simpl.
  rewrite Hst. simpl. split; [f_equal; lia|lia].
Qed.

Lemma reopen_moves_one_count_witness :
  count_images_by_status (set_image_status "img_1" "open" sample.two_slots)
  = (1%nat, 1%nat).
Proof.
  refine (proj1 (reopen_moves_one_count "img_1" sample.two_slots _ _)).
  - apply (bool_decide_unpack _). vm_compute. exact I.
  - vm_compute. reflexivity.
Defined.

(** [reset_all_image_statuses] is idempotent, leaves every image open
    ([count_images_by_status] then reports all images open and none
    closed) and keeps row ids, image ids and queue positions. *)
Theorem reset_all_image_statuses_spec rows :
  reset_all_image_statuses (reset_all_image_statuses rows)
    = reset_all_image_statuses rows /\
  count_images_by_status (reset_all_image_statuses rows)
    = (length rows, 0%nat) /\
  open_rows (reset_all_image_statuses rows) = reset_all_image_statuses rows /\
  (fun row => (rowid row, image_id row, queue_position row))
    <$> reset_all_image_statuses rows
  = (fun row => (rowid row, image_id row, queue_position row)) <$> rows.
Proof.
  unfold reset_all_image_statuses, count_images_by_status, open_rows.
  split_and!.
  - rewrite <- list_fmap_compose. by apply list_fmap_ext.
  - induction rows as [|r rows IH]; [done|]. csimpl.
    rewrite !filter_cons. simpl. injection IH as IH1 IH2.
    by rewrite IH1, IH2.
  - induction rows as [|r rows IH]; [done|]. csimpl.
    rewrite filter_cons. simpl. by rewrite IH.
  - rewrite <- list_fmap_compose. by apply list_fmap_ext.
Qed.

End table_facts.

(** ** More on the queue allocator *)

Section queue_more.
Import db.

Lemma allocator_cases rows :
  match get_next_image_in_queue rows with
  | (None, rows') => open_rows rows = [] /\ rows' = rows
  | (Some img, rows') =>
    exists next,
      next ∈ open_rows rows /\ img = image_of_row next /\
      rows' = update_queue_position (max_position rows + 1)
                                    (image_id next) rows /\
      (fun row => (rowid row, image_id row, number row, file_id row,
                   status row, metadata row)) <$> rows'
      = (fun row => (rowid row, image_id row, number row, file_id row,
                     status row, metadata row)) <$> rows
  end.
Proof.
  destruct (open_rows rows) as [|o opens] eqn:Hopen.
  - unfold get_next_image_in_queue. rewrite Hopen. by destruct rows.
  - destruct (allocator_step rows) as (next & Hnext & ->).
    { by rewrite Hopen. }
    exists next. split_and!; [|done..|].
    + rewrite <- Hopen. by eapply list_elem_of_lookup_2.
    + unfold update_queue_position. rewrite <- list_fmap_compose.
      apply list_fmap_ext. intros _ row _. simpl.
      by destruct (decide (image_id row = image_id next)).
Qed.

(** What one call of [get_next_image_in_queue] does: without an open
    image it returns nothing and leaves the table as it is; otherwise it
    returns one of the open images and changes nothing but the queue
    position of that image, which becomes the maximum plus one. *)
Theorem allocator_outcome rows :
  match get_next_image_in_queue rows with
  | (None, rows') => open_rows rows = [] /\ rows' = rows
  | (Some img, rows') =>
    exists next,
      next ∈ open_rows rows /\ img = image_of_row next /\
      rows' = update_queue_position (max_position rows + 1)
                                    (image_id next) rows /\
      (fun row => (rowid row, image_id row, number row, file_id row,
                   status row, metadata row)) <$> rows'
      = (fun row => (rowid row, image_id row, number row, file_id row,
                     status row, metadata row)) <$> rows
  end.
Proof. exact (allocator_cases rows). Qed.

Lemma nth_call_lookup i rows :
  well_formed rows -> 0 <= max_position rows -> open_rows rows <> [] ->
  nth_call i rows
  = open_images rows !! ((start_index rows + i) mod length (open_rows rows))%nat.
Proof.
  intros Hwf Hmax Hopen.
  destruct (allocator_run i rows Hwf Hmax Hopen)
    as (_ & _ & Himg' & Hlen' & Hidx').
  assert (Hopen' : open_rows (db_after i rows) <> []).
  { intros Hnil. rewrite Hnil in Hlen'. simpl in Hlen'.
    destruct (open_rows rows); [done|discriminate]. }
  destruct (allocator_step _ Hopen') as (next & Hnext & Hstep).
  unfold nth_call. rewrite Hstep. simpl.
  rewrite <- Himg'. unfold open_images.
  by rewrite list_lookup_fmap, <- Hidx', Hnext.
Qed.

Lemma reset_queue_positions_max rows :
  max_position (reset_queue_positions rows) = 0.
Proof.
  destruct rows as [|r rows]; [done|].
  destruct (max_position_attained (reset_queue_positions (r :: rows)))
    as (row & Hin & <-); [done|].
  by apply list_elem_of_fmap in Hin as (row0 & -> & _).
Qed.

(** [reset_queue_positions] is idempotent and restarts the cycle: after
    it, call number [n + 1] of the allocator returns the open image at
    position [n mod M] of the [M] open images in creation order, so the
    first call returns the first open image. *)
Theorem reset_queue_positions_restarts rows n :
  well_formed rows ->
  open_rows rows <> [] ->
  reset_queue_positions (reset_queue_positions rows)
    = reset_queue_positions rows /\
  nth_call n (reset_queue_positions rows)
    = open_images rows !! (n mod length (open_rows rows))%nat.
Proof.
  intros [Hs Hnd] Hopen. split.
  - unfold reset_queue_positions. rewrite <- list_fmap_compose.
    by apply list_fmap_ext.
  - assert (Hopens : open_rows (reset_queue_positions rows)
                     = reset_queue_positions (open_rows rows)).
    { unfold open_rows, reset_queue_positions.
      clear. induction rows as [|r rows IH]; [done|]. csimpl.
      rewrite !filter_cons. simpl.
      destruct (decide (status r = "open")); csimpl; by rewrite IH. }
    rewrite nth_call_lookup.
    + unfold start_index. rewrite reset_queue_positions_max.
      rewrite decide_True by done. simpl.
      unfold open_images. rewrite Hopens.
      unfold reset_queue_positions. rewrite length_fmap.
      rewrite <- list_fmap_compose.
      by erewrite (list_fmap_ext (image_of_row ∘ set_queue_position 0)).
    + split.
      * eapply StronglySorted_fmap; [|exact Hs]. by intros a b.
      * unfold reset_queue_positions. rewrite <- list_fmap_compose.
        by erewrite list_fmap_ext.
    + by rewrite reset_queue_positions_max.
    + rewrite Hopens. unfold reset_queue_positions.
      intros Hnil%fmap_nil_inv. done.
Qed.

Lemma reset_queue_positions_restarts_witness :
  nth_call 0 (reset_queue_positions (db_after 5 sample.fresh_table))
  = open_images (db_after 5 sample.fresh_table) !! 0%nat.
Proof.
  refine (proj2 (reset_queue_positions_restarts
                   (db_after 5 sample.fresh_table) 0 _ _)).
  - unfold well_formed. apply (bool_decide_unpack _). vm_compute. exact I.
  - vm_compute. discriminate.
Defined.

(** A gated allocation that returns did what some number [n + 1] of plain
    allocator calls do: it returns what call [n + 1] returns, the table
    is the table after [n + 1] calls (a rejected image keeps the queue
    position it was given), the first [n] calls returned images whose
    draw exceeded the percentage of their room, and [n] stays below the
    nesting depth. *)
Theorem gated_allocation_is_repeated_allocation depth :
  forall pcts rolls k rows img rows' k',
  get_next_image_in_queue_with_percentage depth pcts rolls k rows
    = Some (img, rows', k') ->
  exists n,
    (n < depth)%nat /\
    img = nth_call n rows /\
    rows' = db_after (S n) rows /\
    (k' = k + n \/ k' = k + n + 1)%nat /\
    forall j, (j < n)%nat ->
      exists rejected g p,
        nth_call j rows = Some rejected /\
        default ∅ (img_metadata rejected) !! "source_group_b_id"
          = Some (MInt g) /\
        pcts !! g = Some p /\
        p < rolls (k + j)%nat.
Proof.
  induction depth as [|depth IH]; intros pcts rolls k rows img rows' k' Hrun;
    [done|].
  cbn [get_next_image_in_queue_with_percentage] in Hrun.
  assert (Hnow : forall kk, (kk = k \/ kk = S k) ->
            Some (fst (get_next_image_in_queue rows),
                  snd (get_next_image_in_queue rows), kk)
            = Some (img, rows', k') ->
            exists n, (n < S depth)%nat /\ img = nth_call n rows /\
              rows' = db_after (S n) rows /\
              (k' = k + n \/ k' = k + n + 1)%nat /\
              forall j, (j < n)%nat ->
                exists rejected g p,
                  nth_call j rows = Some rejected /\
                  default ∅ (img_metadata rejected) !! "source_group_b_id"
                    = Some (MInt g) /\
                  pcts !! g = Some p /\
                  p < rolls (k + j)%nat).
  { intros kk Hkk [= <- <- <-]. exists 0%nat.
    split_and!; [lia|done|done|lia|lia]. }
  destruct (get_next_image_in_queue rows) as [[image|] rows1] eqn:Hcall;
    [|by apply (Hnow k); [left|]].
  destruct (decide (pcts = ∅)) as [?|Hpcts]; [by apply (Hnow k); [left|]|].
  destruct (default ∅ (img_metadata image) !! "source_group_b_id")
    as [[g|]|] eqn:Hmd; [|by apply (Hnow k); [left|]..].
  destruct (pcts !! g) as [p|] eqn:Hp; [|by apply (Hnow k); [left|]].
  destruct (decide (rolls k <= p)) as [Hle|Hgt];
    [by apply (Hnow (S k)); [right|]|].
  apply IH in Hrun as (n & Hn & -> & -> & Hk' & Hrej).
  exists (S n). split_and!.
  - lia.
  - unfold nth_call. simpl. by rewrite Hcall.
  - simpl. by rewrite Hcall.
  - lia.
  - intros [|j] Hj.
    + exists image, g, p. rewrite Nat.add_0_r. unfold nth_call. simpl.
      rewrite Hcall. split_and!; [done..|lia].
    + destruct (Hrej j) as (rejected & g' & p' & Hj1 & Hj2 & Hj3 & Hj4);
        [lia|].
      exists rejected, g', p'. split_and!; [|done..|].
      * unfold nth_call in *. simpl. by rewrite Hcall.
      * by replace (k + S j)%nat with (S k + j)%nat by lia.
Qed.

Lemma gated_allocation_is_repeated_allocation_witness :
  exists n,
    (n < 3)%nat /\
    Some (image_of_row (sample.gated_row 0))
      = nth_call n [sample.gated_row 0] /\
    db_after 2 [sample.gated_row 0] = db_after (S n) [sample.gated_row 0] /\
    (2 = 0 + n \/ 2 = 0 + n + 1)%nat /\
    forall j, (j < n)%nat ->
      exists rejected g p,
        nth_call j [sample.gated_row 0] = Some rejected /\
        default ∅ (img_metadata rejected) !! "source_group_b_id"
          = Some (MInt g) /\
        ({[ -2001 := 50 ]} : gmap Z Z) !! g = Some p /\
        p < sample.rolls_60_40 (0 + j)%nat.
Proof.
  apply (gated_allocation_is_repeated_allocation 3 {[ -2001 := 50 ]}
           sample.rolls_60_40 0 [sample.gated_row 0]).
  vm_compute. reflexivity.
Defined.

(** Percentages of 100 or more never hold an image back: when every
    configured percentage is at least 100 (in particular with no
    percentage configured) and the draws are at most 100, the gated
    allocation returns what the plain allocator returns, with the same
    table, after at most one draw. *)
Theorem gated_allocation_unrestricted depth pcts rolls k rows :
  (forall g p, pcts !! g = Some p -> 100 <= p) ->
  (forall j, rolls j <= 100) ->
  exists k',
    get_next_image_in_queue_with_percentage (S depth) pcts rolls k rows
    = Some ((get_next_image_in_queue rows).1,
            (get_next_image_in_queue rows).2, k') /\
    (k' = k \/ k' = S k) /\ (pcts = ∅ -> k' = k).
Proof.
  intros Hpcts Hrolls.
  cbn [get_next_image_in_queue_with_percentage].
  destruct (get_next_image_in_queue rows) as [[image|] rows1];
    [|exists k; auto].
  destruct (decide (pcts = ∅)) as [?|Hne]; [exists k; auto|].
  destruct (default ∅ (img_metadata image) !! "source_group_b_id")
    as [[g|]|]; [|exists k; split_and!; auto; done..].
  destruct (pcts !! g) as [p|] eqn:Hp; [|exists k; split_and!; auto; done].
  rewrite decide_True.
  - exists (S k). split_and!; auto; done.
  - specialize (Hpcts g p Hp). specialize (Hrolls k). lia.
Qed.

Lemma gated_allocation_unrestricted_witness :
  exists k',
    get_next_image_in_queue_with_percentage 1 {[ -2001 := 100 ]}
      sample.rolls_60_40 0 [sample.gated_row 0]
    = Some ((get_next_image_in_queue [sample.gated_row 0]).1,
            (get_next_image_in_queue [sample.gated_row 0]).2, k') /\
    (k' = 0%nat \/ k' = 1%nat) /\
    (({[ -2001 := 100 ]} : gmap Z Z) = ∅ -> k' = 0%nat).
Proof.
  apply (gated_allocation_unrestricted 0 {[ -2001 := 100 ]}
           sample.rolls_60_40 0 [sample.gated_row 0]).
  - intros g p. rewrite lookup_singleton_Some. intros [_ <-]. lia.
  - intros [|j]; simpl; lia.
Defined.

End queue_more.

(** ** Deleting images and selecting by number *)

Section selection_facts.
Import db.

Lemma filter_ext_elem {A} (P Q : A -> Prop)
    `{!forall x, Decision (P x), !forall x, Decision (Q x)} (l : list A) :
  (forall x, x ∈ l -> P x <-> Q x) -> filter P l = filter Q l.
Proof.
  induction l as [|a l IH]; intros Hext; [done|].
  rewrite !filter_cons.
  assert (filter P l = filter Q l) as ->
    by (apply IH; intros; apply Hext; by right).
  apply decide_ext, Hext. left.
Qed.

Lemma filter_all {A} (P : A -> Prop) `{!forall x, Decision (P x)}
    (l : list A) :
  (forall x, x ∈ l -> P x) -> filter P l = l.
Proof.
  induction l as [|a l IH]; intros Hall; [done|].
  rewrite filter_cons_True by (apply Hall; left).
  f_equal. apply IH. intros; apply Hall; by right.
Qed.

Lemma filter_none {A} (P : A -> Prop) `{!forall x, Decision (P x)}
    (l : list A) :
  (forall x, x ∈ l -> ~ P x) -> filter P l = [].
Proof.
  induction l as [|a l IH]; intros Hall; [done|].
  rewrite filter_cons_False by (apply Hall; left).
  apply IH. intros; apply Hall; by right.
Qed.

(** Deleting by the image ids of the rows that satisfy [P] deletes the
    rows that satisfy [P], image ids being unique. *)
Lemma delete_by_ids (P : Row -> Prop) `{!forall x, Decision (P x)} rows :
  NoDup (image_id <$> rows) ->
  filter (fun row => image_id row ∉ image_id <$> filter P rows) rows
  = filter (fun row => ~ P row) rows.
Proof.
  intros Hnd. apply filter_ext_elem. intros row Hrow. split.
  - intros Hnot HP. apply Hnot. apply list_elem_of_fmap. exists row.
    split; [done|]. by apply list_elem_of_filter.
  - intros HnP (r & Hid & Hr)%list_elem_of_fmap.
    apply list_elem_of_filter in Hr as [HPr Hr].
    by rewrite (nodup_fmap_inj image_id rows row r Hnd Hrow Hr Hid) in HnP.
Qed.

Lemma filter_well_formed (P : Row -> Prop) `{!forall x, Decision (P x)} rows :
  well_formed rows -> well_formed (filter P rows).
Proof.
  intros [Hs Hnd]. split; [by apply strongly_sorted_filter|].
  eapply sublist_NoDup; [exact Hnd|].
  apply fmap_sublist, sublist_filter.
Qed.

(** [clear_images_by_group_b] returns [True] exactly when the table has
    the metadata column.  Without the column it leaves the table as it
    is.  With it, it deletes exactly the images whose metadata names the
    room and keeps every other row as it is; the table stays well
    formed, and clearing the same room again changes nothing. *)
Theorem clear_images_by_group_b_spec has_metadata_column group_b_id rows :
  well_formed rows ->
  let result :=
    clear_images_by_group_b has_metadata_column group_b_id rows in
  result.1 = has_metadata_column /\
  (has_metadata_column = false -> result.2 = rows) /\
  (has_metadata_column = true ->
   result.2 = filter (fun row => ~ belongs_to group_b_id row) rows /\
   well_formed result.2 /\
   clear_images_by_group_b true group_b_id result.2 = (true, result.2)).
Proof.
  intros Hwf. destruct has_metadata_column; [|done].
  assert (Hres : (clear_images_by_group_b true group_b_id rows).2
                 = filter (fun row => ~ belongs_to group_b_id row) rows).
  { unfold clear_images_by_group_b. cbn [negb].
    destruct (image_id <$> filter (belongs_to group_b_id) rows)
      as [|i ids] eqn:Hids; simpl.
    - apply fmap_nil_inv in Hids. symmetry.
      apply filter_all. intros row Hrow Hb.
      assert (row ∈ filter (belongs_to group_b_id) rows) as Hin
        by by apply list_elem_of_filter.
      rewrite Hids in Hin. by apply elem_of_nil in Hin.
    - rewrite <- Hids. apply delete_by_ids, Hwf. }
  simpl. rewrite Hres. split_and!.
  - unfold clear_images_by_group_b. cbn [negb]. by destruct (image_id <$> _).
  - done.
  - intros _. split_and!.
    + done.
    + by apply filter_well_formed.
    + unfold clear_images_by_group_b. cbn [negb].
      rewrite list_filter_filter.
      rewrite filter_none; [done|]. intros row _ [Hb Hnb]. done.
Qed.

Lemma clear_images_by_group_b_spec_witness :
  (clear_images_by_group_b true (-2001) [sample.gated_row 0]).2 = [].
Proof.
  refine (proj1 (proj2 (proj2
    (clear_images_by_group_b_spec true (-2001) [sample.gated_row 0] _))
    eq_refl)).
  unfold well_formed. apply (bool_decide_unpack _). vm_compute. exact I.
Defined.

(** [delete_image_by_number] deletes exactly the images that carry the
    number and whose metadata names the room, keeps every other row as
    it is and the table well formed, and returns [True] exactly when it
    deleted something. *)
Theorem delete_image_by_number_spec label group_b_id rows :
  well_formed rows ->
  let result := delete_image_by_number label group_b_id rows in
  result.2 = filter (fun row => ~ (belongs_to group_b_id row /\
                                   number row = label)) rows /\
  well_formed result.2 /\
  (result.1 = true <->
   exists row, row ∈ rows /\ number row = label /\ belongs_to group_b_id row).
Proof.
  intros Hwf.
  set (doomed := filter (fun row => belongs_to group_b_id row /\
                                    number row = label) rows).
  assert (Hdoomed : filter (belongs_to group_b_id)
                      (filter (fun row => number row = label) rows) = doomed)
    by apply list_filter_filter.
  assert (Hcases :
    (doomed = [] /\ delete_image_by_number label group_b_id rows = (false, rows))
    \/ (doomed <> [] /\
        delete_image_by_number label group_b_id rows
        = (true, filter (fun row => image_id row ∉ image_id <$> doomed) rows))).
  { unfold delete_image_by_number.
    destruct (filter (fun row => number row = label) rows)
      as [|c cs] eqn:Hcand.
    - left. split; [by rewrite <- Hdoomed|done].
    - rewrite Hdoomed.
      destruct doomed as [|d ds] eqn:Hd; [by left|right]. by split. }
  assert (Hnone : doomed = [] ->
            filter (fun row => ~ (belongs_to group_b_id row /\
                                  number row = label)) rows = rows).
  { intros Hnil. apply filter_all. intros row Hrow Hb. assert (row ∈ doomed) as Hin by by apply list_elem_of_filter.
    rewrite Hnil in Hin. by apply elem_of_nil in Hin. }
  destruct Hcases as [[Hnil ->]|[Hsome ->]]; simpl.
  - split_and!.
    + by rewrite Hnone.
    + apply Hwf.
    + split; [done|]. intros (row & Hrow & Hl & Hb).
      assert (row ∈ doomed) as Hin by by apply list_elem_of_filter.
      rewrite Hnil in Hin. by apply elem_of_nil in Hin.
  - unfold doomed at 1. rewrite delete_by_ids by apply Hwf. split_and!.
    + done.
    + by apply filter_well_formed.
    + split; [|done]. intros _.
      destruct doomed as [|d ds] eqn:Hd; [done|].
      assert (d ∈ d :: ds) as Hin by left.
      rewrite <- Hd in Hin.
      apply list_elem_of_filter in Hin as [[Hb Hl] Hin]. by exists d.
Qed.

Lemma delete_image_by_number_spec_witness :
  (delete_image_by_number 10 (-2001) [sample.gated_row 0]).2 = [].
Proof.
  refine (proj1
    (delete_image_by_number_spec 10 (-2001) [sample.gated_row 0] _)).
  unfold well_formed. apply (bool_decide_unpack _). vm_compute. exact I.
Defined.

#[local] Instance number_le_total : Total number_le.
Proof. intros a b. unfold number_le. lia. Qed.

#[local] Instance number_le_trans : Transitive number_le.
Proof. intros a b c. unfold number_le. lia. Qed.

Lemma open_rows_by_number_elem rows row :
  row ∈ open_rows_by_number rows <-> row ∈ open_rows rows.
Proof. unfold open_rows_by_number. by rewrite merge_sort_Permutation. Qed.

Lemma open_rows_by_number_sorted rows :
  StronglySorted number_le (open_rows_by_number rows).
Proof. apply StronglySorted_merge_sort; apply _. Qed.

(** [get_next_open_image_ascending] returns nothing exactly when no image
    is open, and otherwise an open image whose number no open image
    undercuts. *)
Theorem lowest_number_first rows :
  match get_next_open_image_ascending rows with
  | None => open_rows rows = []
  | Some img =>
    exists row,
      row ∈ open_rows rows /\ img = plain_image row /\
      forall r, r ∈ open_rows rows -> number row <= number r
  end.
Proof.
  unfold get_next_open_image_ascending.
  pose proof (open_rows_by_number_sorted rows) as Hs.
  pose proof (open_rows_by_number_elem rows) as Helem.
  destruct (open_rows_by_number rows) as [|row sorted] eqn:Hsorted; simpl.
  - destruct (open_rows rows) as [|r rs]; [done|].
    assert (r ∈ @nil Row) as Hr by (apply Helem; left).
    by apply elem_of_nil in Hr.
  - exists row. split_and!; [apply Helem; left|done|].
    intros r [->|Hr]%Helem%elem_of_cons; [lia|].
    apply StronglySorted_inv in Hs as [_ Hall].
    rewrite Forall_forall in Hall. by apply Hall.
Qed.

Lemma priority_images_filter pcts (sorted : list Row) :
  omap (fun '(image, c) => match c with Top => Some image | _ => None end)
       ((fun row => (image_with_metadata row, priority_of pcts row))
        <$> sorted)
  = image_with_metadata
    <$> filter (fun row => priority_of pcts row = Top) sorted.
Proof.
  induction sorted as [|r sorted IH]; [done|]. csimpl.
  rewrite filter_cons, IH.
  by destruct (priority_of pcts r) eqn:Hp; simpl.
Qed.

Lemma priority_of_Top pcts row :
  priority_of pcts row = Top <->
  exists g, default ∅ (metadata row) !! "source_group_b_id" = Some (MInt g)
            /\ pcts !! g = Some 100.
Proof.
  unfold priority_of.
  destruct (default ∅ (metadata row) !! "source_group_b_id") as [[g|]|].
  - destruct (pcts !! g) as [p|] eqn:Hp.
    + destruct (decide (p = 100)) as [->|Hne].
      * split; [|done]. intros _. by exists g.
      * split; [by destruct (decide (50 <= p))|].
        intros (g' & [= <-] & Hg'). congruence.
    + split; [done|]. intros (g' & [= <-] & Hg'). congruence.
  - split; [done|]. by intros (g' & ? & _).
  - split; [done|]. by intros (g' & ? & _).
Qed.

(** In the priority selector an open image of a room set to 100 percent
    always wins: when there is one, the selector returns the
    lowest-numbered such image, whatever the other percentages are, and
    consumes no draw. *)
Theorem full_percentage_wins pcts rolls k rows candidate g :
  candidate ∈ open_rows rows ->
  default ∅ (metadata candidate) !! "source_group_b_id" = Some (MInt g) ->
  pcts !! g = Some 100 ->
  exists best,
    best ∈ open_rows rows /\
    priority_of pcts best = Top /\
    (forall r, r ∈ open_rows rows -> priority_of pcts r = Top ->
               number best <= number r) /\
    get_next_open_image_ascending_with_percentage pcts rolls k rows
    = (Some (image_with_metadata best), k).
Proof.
  intros Hcand Hmd Hg.
  assert (Htop : priority_of pcts candidate = Top)
    by (apply priority_of_Top; by exists g).
  assert (Hne : pcts <> ∅).
  { intros ->. by rewrite lookup_empty in Hg. }
  unfold get_next_open_image_ascending_with_percentage.
  pose proof (open_rows_by_number_sorted rows) as Hs.
  pose proof (open_rows_by_number_elem rows) as Helem.
  destruct (open_rows_by_number rows) as [|row sorted] eqn:Hsorted.
  { apply Helem in Hcand. by apply elem_of_nil in Hcand. }
  rewrite decide_False by done.
  rewrite priority_images_filter.
  pose proof (strongly_sorted_filter number_le
                (fun row => priority_of pcts row = Top) _ Hs) as Hfs.
  destruct (filter (fun row => priority_of pcts row = Top) (row :: sorted))
    as [|best tops] eqn:Htops.
  { assert (candidate ∈ filter (fun row => priority_of pcts row = Top)
                          (row :: sorted)) as Hin
      by (apply list_elem_of_filter; split; [done|by apply Helem]).
    rewrite Htops in Hin. by apply elem_of_nil in Hin. }
  assert (Hbest : best ∈ filter (fun row => priority_of pcts row = Top)
                         (row :: sorted)) by (rewrite Htops; left).
  apply list_elem_of_filter in Hbest as [Hbtop Hbin].
  exists best. split_and!; [by apply Helem|done| |done].
  intros r Hr Hrtop.
  assert (r ∈ best :: tops) as [->|Hin]%elem_of_cons.
  { rewrite <- Htops. apply list_elem_of_filter. split; [done|].
    by apply Helem. }
  - lia.
  - apply StronglySorted_inv in Hfs as [_ Hall].
    rewrite Forall_forall in Hall. by apply Hall.
Qed.

Lemma full_percentage_wins_witness :
  exists best,
    best ∈ open_rows [sample.gated_row 0] /\
    priority_of {[ -2001 := 100 ]} best = Top /\
    (forall r, r ∈ open_rows [sample.gated_row 0] ->
               priority_of {[ -2001 := 100 ]} r = Top ->
               number best <= number r) /\
    get_next_open_image_ascending_with_percentage
      {[ -2001 := 100 ]} sample.rolls_60_40 0 [sample.gated_row 0]
    = (Some (image_with_metadata best), 0%nat).
Proof.
  apply (full_percentage_wins {[ -2001 := 100 ]} sample.rolls_60_40 0
           [sample.gated_row 0] (sample.gated_row 0) (-2001)).
  - vm_compute. left.
  - vm_compute. reflexivity.
  - vm_compute. reflexivity.
Defined.

Lemma first_passing_some rolls (candidates : list (Image * Z)) image p :
  (image, p) ∈ candidates -> (forall j, rolls j <= p) ->
  forall k, exists selected k',
    first_passing rolls k candidates = (Some selected, k').
Proof.
  intros Hin Hrolls.
  induction candidates as [|[im q] candidates IH]; intros k;
    [by apply elem_of_nil in Hin|].
  simpl. destruct (decide (rolls k <= q)) as [Hle|Hgt]; [by eauto|].
  apply elem_of_cons in Hin as [[= <- <-]|Hin]; [|by apply IH].
  specialize (Hrolls k). lia.
Qed.

(** An open image without a percentage for its room (or without a room)
    keeps the priority selector from coming back empty: with draws of at
    most 100 the selector then always returns an image, although such an
    image is tried only after the images of the rooms set to 50 percent
    or more. *)
Theorem unlisted_room_never_empty pcts rolls k rows candidate :
  candidate ∈ open_rows rows ->
  match default ∅ (metadata candidate) !! "source_group_b_id" with
  | Some (MInt g) => pcts !! g = None
  | _ => True
  end ->
  (forall j, rolls j <= 100) ->
  exists selected k',
    get_next_open_image_ascending_with_percentage pcts rolls k rows
    = (Some selected, k').
Proof.
  intros Hcand Hunlisted Hrolls.
  assert (Hnormal : priority_of pcts candidate = Normal 100).
  { unfold priority_of.
    destruct (default ∅ (metadata candidate) !! "source_group_b_id")
      as [[g|]|]; [|done..]. by rewrite Hunlisted. }
  unfold get_next_open_image_ascending_with_percentage.
  pose proof (open_rows_by_number_elem rows candidate) as Helem.
  destruct (open_rows_by_number rows) as [|row sorted] eqn:Hsorted.
  { apply Helem in Hcand. by apply elem_of_nil in Hcand. }
  destruct (decide (pcts = ∅)); [by eauto|].
  destruct (omap _ _) as [|selected_image ?]; [|by eauto].
  destruct (first_passing rolls k _) as [[image|] k1]; [by eauto|].
  apply (first_passing_some rolls _ (image_with_metadata candidate) 100);
    [|done].
  apply list_elem_of_omap.
  exists (image_with_metadata candidate, Normal 100). split; [|done].
  apply list_elem_of_fmap. exists candidate. rewrite Hnormal.
  split; [done|]. by apply Helem.
Qed.

Lemma unlisted_room_never_empty_witness :
  exists selected k',
    get_next_open_image_ascending_with_percentage
      {[ -2005 := 0 ]} sample.rolls_60_40 0 [sample.gated_row 0]
    = (Some selected, k').
Proof.
  apply (unlisted_room_never_empty {[ -2005 := 0 ]} sample.rolls_60_40 0
           [sample.gated_row 0] (sample.gated_row 0)).
  - vm_compute. left.
  - vm_compute. reflexivity.
  - intros [|j]; simpl; lia.
Defined.

Lemma list_find_filter_conj {A} (P Q : A -> Prop)
    `{!forall x, Decision (P x), !forall x, Decision (Q x)} (l : list A) :
  snd <$> list_find P (filter Q l)
  = snd <$> list_find (fun x => P x /\ Q x) l.
Proof.
  induction l as [|a l IH]; [done|].
  rewrite filter_cons. destruct (decide (Q a)) as [HQ|HQ]; csimpl.
  - destruct (decide (P a)) as [HP|HP].
    + by rewrite decide_True.
    + rewrite decide_False by tauto.
      rewrite <- !option_fmap_compose.
      destruct (list_find P (filter Q l)) as [[i x]|],
               (list_find (fun x => P x /\ Q x) l) as [[j y]|];
        simpl in *; congruence.
  - rewrite decide_False by tauto. rewrite IH.
    rewrite <- option_fmap_compose.
    by destruct (list_find (fun x => P x /\ Q x) l) as [[j y]|].
Qed.

Lemma list_find_head_filter {A} (Q : A -> Prop)
    `{!forall x, Decision (Q x)} (l : list A) :
  snd <$> list_find Q l = head (filter Q l).
Proof.
  induction l as [|a l IH]; [done|].
  rewrite filter_cons. csimpl. destruct (decide (Q a)); [done|].
  rewrite <- IH, <- option_fmap_compose.
  by destruct (list_find Q l) as [[j y]|].
Qed.

(** Once an image has been allocated (the maximum queue position is not
    0), the next image [get_queue_status] reports is the image the
    allocator returns next. *)
Theorem queue_status_next_agrees rows :
  NoDup (image_id <$> rows) ->
  max_position rows <> 0 ->
  exists report,
    get_queue_status rows = inr report /\
    next_image report
    = (fun img => (img_image_id img, img_number img))
      <$> (get_next_image_in_queue rows).1.
Proof.
  unfold get_queue_status, get_next_image_in_queue.
  destruct rows as [|r0 rows0] eqn:Hrows;
    [intros _ Hmax; by destruct Hmax|].
  cbv beta iota zeta. rewrite <- Hrows. intros Hnd Hmax.
  assert (Hne : rows <> []) by by rewrite Hrows.
  destruct (max_position_attained rows Hne) as (holder & Hholder & Hq).
  destruct (list_find_elem_of (fun row => qpos row = max_position rows)
              rows holder Hholder Hq) as [[i current] Hcurrent].
  pose proof Hcurrent as Hcur.
  apply list_find_Some in Hcur as (Hi%list_elem_of_lookup_2 & _ & _).
  destruct (list_find_elem_of (fun row => image_id row = image_id current)
              rows current Hi eq_refl) as [[j found] Hfound].
  assert (found = current) as ->.
  { apply list_find_Some in Hfound as (Hj%list_elem_of_lookup_2 & Hid & _).
    by apply (nodup_fmap_inj image_id rows). }
  pose proof (list_find_filter_conj
                (fun row => rowid current < rowid row)
                (fun row => status row = "open") rows) as Hafter.
  pose proof (list_find_head_filter (fun row => status row = "open") rows)
    as Hfirst.
  fold (open_rows rows) in Hafter, Hfirst.
  rewrite Hcurrent. simpl. rewrite Hfound. simpl.
  eexists. split; [reflexivity|]. simpl.
  remember (list_find (fun row => rowid current < rowid row)
                      (open_rows rows)) as after_open eqn:Hafter_open.
  destruct (list_find (fun row => rowid current < rowid row /\
                                  status row = "open") rows)
    as [[a1 after]|] eqn:Hfind1;
    destruct (list_find (fun row => status row = "open") rows)
      as [[a3 first]|] eqn:Hfind3;
    destruct after_open as [[a2 after']|];
    destruct (open_rows rows) as [|o os] eqn:Hopen;
    simpl in Hafter, Hfirst; try discriminate; simpl;
    rewrite ?decide_False, ?Hcurrent by done;
    try done.
  - by injection Hafter as <-.
  - by injection Hfirst as ->.
Qed.

Lemma queue_status_next_agrees_witness :
  exists report,
    get_queue_status (db_after 5 sample.fresh_table) = inr report /\
    next_image report
    = (fun img => (img_image_id img, img_number img))
      <$> (get_next_image_in_queue (db_after 5 sample.fresh_table)).1.
Proof.
  apply (queue_status_next_agrees (db_after 5 sample.fresh_table)).
  - apply (bool_decide_unpack _). vm_compute. exact I.
  - vm_compute. discriminate.
Defined.

Lemma random_choice_elem {A} draw (l : list A) :
  l <> [] -> exists x, random_choice draw l = Some x /\ x ∈ l.
Proof.
  intros Hne. unfold random_choice.
  destruct (lookup_lt_is_Some_2 l (draw mod length l)%nat) as [x Hx].
  - apply Nat.mod_upper_bound. by destruct l.
  - exists x. split; [done|]. by eapply list_elem_of_lookup_2.
Qed.

(** [get_random_open_image_by_group_b] returns nothing exactly when no
    image is open; otherwise it returns an open image, and one of the
    room asked for whenever that room has an open image. *)
Theorem random_open_image_by_group_b_spec group_b_id draw rows :
  match get_random_open_image_by_group_b group_b_id draw rows with
  | None => open_rows rows = []
  | Some img =>
    exists row,
      row ∈ open_rows rows /\ img = plain_image row /\
      ((exists r, r ∈ open_rows rows /\ belongs_to group_b_id r) ->
       belongs_to group_b_id row)
  end.
Proof.
  unfold get_random_open_image_by_group_b, get_random_open_image.
  destruct (open_rows rows) as [|o opens] eqn:Hopen; [done|].
  destruct (filter (belongs_to group_b_id) (o :: opens))
    as [|f filtered] eqn:Hfiltered.
  - destruct (random_choice_elem draw (o :: opens)) as (x & -> & Hx); [done|].
    simpl. exists x. split_and!; [done..|].
    intros (r & Hr & Hb).
    assert (r ∈ filter (belongs_to group_b_id) (o :: opens)) as Hin
      by by apply list_elem_of_filter.
    rewrite Hfiltered in Hin. by apply elem_of_nil in Hin.
  - destruct (random_choice_elem draw (f :: filtered)) as (x & -> & Hx);
      [done|].
    simpl. rewrite <- Hfiltered in Hx.
    apply list_elem_of_filter in Hx as [Hb Hx]. by exists x.
Qed.

End selection_facts.

(** ** The reconciler as a whole, the forwarding switch, and the
    proposal-approval round trip *)

Section reconciler_facts.
Import bot.

Lemma find_by_reply_elem m entries img_id data :
  find_by_reply m entries = Some (img_id, data) ->
  (img_id, data) ∈ entries /\ group_b_msg_id data = m.
Proof.
  unfold find_by_reply.
  destruct (list_find _ entries) as [[i kv]|] eqn:Hfind; [|done].
  intros [= ->]. apply list_find_Some in Hfind as (Hi & Hm & _).
  split; [by eapply list_elem_of_lookup_2|done].
Qed.

(** The three things a call of the reconciler can do to the state, with
    the requests of the second. *)
Lemma reconciler_outcomes env update s :
  let result := handle_all_group_b_messages env update s in
  result = (s, []) \/
  (exists replied img_id data response rendering body,
     reply_to_message update = Some replied /\
     find_by_reply (replied_message_id replied) (forwarded_msgs s)
       = Some (img_id, data) /\
     result.1 = with_status img_id "open" (with_response img_id response s) /\
     result.2 = rendering :: (if FORWARDING_ENABLED s then relay data body
                              else []) /\
     (rendering = schedule_message_deletion (group_b_chat_id data)
                    (group_b_msg_id data) 60 \/
      exists text, rendering = edit_message_text (group_b_chat_id data)
                                 (group_b_msg_id data) text)) \/
  (exists replied img_id data number,
     reply_to_message update = Some replied /\
     find_by_reply (replied_message_id replied) (forwarded_msgs s)
       = Some (img_id, data) /\
     is_group_admin (user_id update) (chat_id update) s
       || is_global_admin (user_id update) s = true /\
     result = handle_custom_amount env update img_id data number s).
Proof.
  intros result.
  destruct (reply_to_message update) as [replied|] eqn:Hreply.
  2:{ left. unfold result, handle_all_group_b_messages. rewrite Hreply.
      destruct (decide _); [done|]. by destruct (bool_decide _). }
  destruct (find_by_reply (replied_message_id replied) (forwarded_msgs s))
    as [[img_id data]|] eqn:Hfind.
  2:{ left. unfold result, handle_all_group_b_messages.
      rewrite Hreply, Hfind.
      destruct (decide _); [done|]. by destruct (bool_decide _). }
  assert (Hclassify : forall number,
    let outcome :=
      if decide (number = amount data) then
        process_group_b_response img_id data number ("+" +:+ number) s
      else if decide (number = bot.number data) then (s, [])
      else if is_group_admin (user_id update) (chat_id update) s
              || is_global_admin (user_id update) s
      then handle_custom_amount env update img_id data number s
      else (s, []) in
    result = outcome ->
    result = (s, []) \/
    (exists replied0 img_id0 data0 response rendering body,
       Some replied = Some replied0 /\
       find_by_reply (replied_message_id replied0) (forwarded_msgs s)
         = Some (img_id0, data0) /\
       result.1 = with_status img_id0 "open"
                    (with_response img_id0 response s) /\
       result.2 = rendering :: (if FORWARDING_ENABLED s
                                then relay data0 body else []) /\
       (rendering = schedule_message_deletion (group_b_chat_id data0)
                      (group_b_msg_id data0) 60 \/
        exists text, rendering = edit_message_text (group_b_chat_id data0)
                                   (group_b_msg_id data0) text)) \/
    (exists replied0 img_id0 data0 number0,
       Some replied = Some replied0 /\
       find_by_reply (replied_message_id replied0) (forwarded_msgs s)
         = Some (img_id0, data0) /\
       is_group_admin (user_id update) (chat_id update) s
         || is_global_admin (user_id update) s = true /\
       result = handle_custom_amount env update img_id0 data0 number0 s)).
  { intros number outcome ->. unfold outcome.
    destruct (decide (number = amount data)).
    - right; left. exists replied, img_id, data.
      unfold process_group_b_response. simpl.
      destruct (is_click_mode data); do 3 eexists;
        (split_and!; [done|done|reflexivity|reflexivity|]);
        [by left|right; by eexists].
    - destruct (decide (number = bot.number data)); [by left|].
      destruct (is_group_admin _ _ _ || is_global_admin _ _) eqn:Hadmin;
        [|by left].
      right; right. by exists replied, img_id, data, number. }
  assert (Hresult : result = handle_all_group_b_messages env update s)
    by done.
  clearbody result. unfold handle_all_group_b_messages in Hresult.
  rewrite Hreply, Hfind in Hresult.
  destruct (decide (strip (text update) = EmptyString)); [by left|].
  destruct (bool_decide _).
  { right; left. exists replied, img_id, data, "+0". subst result.
    unfold handle_no_show. simpl.
    destruct (is_click_mode data); do 2 eexists;
      (split_and!; [done|done|reflexivity|reflexivity|]);
      [by left|right; by eexists]. }
  simpl in Hresult.
  destruct (findall_plus_digits (strip (text update))) as [|number ?];
    [destruct (findall_digits (strip (text update))) as [|number ?];
       [by left|]|];
    by apply (Hclassify number).
Qed.

Lemma reconciler_keeps_switch env update s :
  FORWARDING_ENABLED (handle_all_group_b_messages env update s).1
  = FORWARDING_ENABLED s.
Proof.
  destruct (reconciler_outcomes env update s)
    as [->|[(replied & img_id & data & response & rendering & body & _ & _
             & -> & _)
           |(replied & img_id & data & number & _ & _ & _ & ->)]]; done.
Qed.

(** A reply handled by the reconciler changes nothing, or reopens the
    slot of the tracked message it replies to, or records a pending
    approval under its own message id for an administrator: the tracked
    entries, the forwarding switch and the administrators are never
    changed, and no slot is ever closed, created or deleted. *)
Theorem reconciler_frame env update s :
  let s' := (handle_all_group_b_messages env update s).1 in
  forwarded_msgs s' = forwarded_msgs s /\
  FORWARDING_ENABLED s' = FORWARDING_ENABLED s /\
  GLOBAL_ADMINS s' = GLOBAL_ADMINS s /\
  GROUP_ADMINS s' = GROUP_ADMINS s /\
  (images s' = images s /\
   (pending_custom_amounts s' = pending_custom_amounts s \/
    is_group_admin (user_id update) (chat_id update) s
      || is_global_admin (user_id update) s = true /\
    exists approval,
      pending_custom_amounts s'
      = dict_set (message_id update) approval (pending_custom_amounts s))
   \/
   pending_custom_amounts s' = pending_custom_amounts s /\
   exists replied img_id data,
     reply_to_message update = Some replied /\
     (img_id, data) ∈ forwarded_msgs s /\
     group_b_msg_id data = replied_message_id replied /\
     images s' = db.set_image_status img_id "open" (images s)).
Proof.
  intros s'. unfold s'.
  destruct (reconciler_outcomes env update s)
    as [->|[(replied & img_id & data & response & rendering & body & Hreply
             & Hfind & -> & _)
           |(replied & img_id & data & number & Hreply & Hfind & Hadmin
             & ->)]].
  - split_and!; [done..|]. left. split; [done|by left].
  - apply find_by_reply_elem in Hfind as [Hin Hmsg].
    split_and!; [done..|]. right. split; [done|].
    by exists replied, img_id, data.
  - split_and!; [done..|]. left. split; [done|]. right. split; [done|].
    by eexists.
Qed.

(** After a global admin has switched forwarding off with a message that
    says so, the reconciler relays nothing, whatever reply it handles:
    every request it issues is a reply in the chat of the handled
    message, the lookup of a global admin's name in that chat, the edit
    or the scheduled deletion of the tracked target message replied to,
    or a private notice to a global admin; and it leaves the switch
    off. *)
Theorem forwarding_off_silences_relay command s0 env update :
  is_global_admin (user_id command) s0 = true ->
  contains "开启转发" (lower (strip (text command))) = false ->
  contains "关闭转发" (lower (strip (text command))) = true ->
  let s := (handle_toggle_forwarding command s0).1 in
  let result := handle_all_group_b_messages env update s in
  FORWARDING_ENABLED s = false /\
  FORWARDING_ENABLED result.1 = false /\
  forall request,
    request ∈ result.2 ->
    match request with
    | reply_text _ => True
    | send_message to _ _ => to ∈ GLOBAL_ADMINS s0
    | get_chat_member in_chat user =>
      in_chat = chat_id update /\ user ∈ GLOBAL_ADMINS s0
    | edit_message_text in_chat message _
    | schedule_message_deletion in_chat message _ =>
      exists replied img_id data,
        reply_to_message update = Some replied /\
        (img_id, data) ∈ forwarded_msgs s0 /\
        replied_message_id replied = group_b_msg_id data /\
        in_chat = group_b_chat_id data /\ message = group_b_msg_id data
    end.
Proof.
  intros Hadmin Hon Hoff s result.
  assert (Hs : s = with_forwarding false s0).
  { unfold s, handle_toggle_forwarding. by rewrite Hadmin, Hon, Hoff. }
  assert (Hflag : FORWARDING_ENABLED s = false) by by rewrite Hs.
  split; [done|]. split.
  { unfold result. by rewrite reconciler_keeps_switch. }
  intros request Hin. unfold result in Hin.
  destruct (reconciler_outcomes env update s)
    as [Hnone|[(replied & img_id & data & response & rendering & body
                & Hreply & Hfind & _ & Hrequests & Hrendering)
              |(replied & img_id & data & number & _ & _ & _ & Hcustom)]].
  - rewrite Hnone in Hin. by apply elem_of_nil in Hin.
  - rewrite Hrequests, Hflag in Hin.
    apply list_elem_of_singleton in Hin as ->.
    apply find_by_reply_elem in Hfind as [Hentry Hmessage].
    rewrite Hs in Hentry. simpl in Hentry.
    destruct Hrendering as [->|[text ->]];
      by exists replied, img_id, data.
  - rewrite Hcustom in Hin. unfold handle_custom_amount in Hin. simpl in Hin.
    rewrite Hs in Hin. simpl in Hin.
    apply elem_of_app in Hin as [Hin|Hin].
    { apply list_elem_of_fmap in Hin as (admin & -> & Hadm).
      split; [done|]. by apply elem_of_elements in Hadm. }
    apply elem_of_cons in Hin as [->|Hin]; [done|].
    apply list_elem_of_fmap in Hin as (admin & -> & Hadm).
    by apply elem_of_elements in Hadm.
Qed.

Lemma forwarding_off_silences_relay_witness :
  FORWARDING_ENABLED
    (handle_toggle_forwarding
       (mkUpdate 5962096701 "private" 1 "关闭转发" 5962096701 "admin" None)
       sample.state).1 = false.
Proof.
  refine (proj1 (forwarding_off_silences_relay
    (mkUpdate 5962096701 "private" 1 "关闭转发" 5962096701 "admin" None)
    sample.state sample.env (sample.reply_from 7 "+25") _ _ _)).
  - vm_compute. reflexivity.
  - vm_compute. reflexivity.
  - vm_compute. reflexivity.
Defined.

(** The messages that reach [handle_toggle_forwarding] without naming a
    direction -- the status request and the three commands, among them
    [/forwarding_off] -- flip the switch when a global admin sends them:
    a status request changes the status, and [/forwarding_off] sent
    while forwarding is off turns it on. *)
Theorem forwarding_requests_flip_switch update s :
  is_global_admin (user_id update) s = true ->
  text update ∈ ["转发状态"; "/forwarding_on"; "/forwarding_off";
                 "/forwarding_status"] ->
  FORWARDING_ENABLED (handle_toggle_forwarding update s).1
  = negb (FORWARDING_ENABLED s).
Proof.
  intros Hadmin Htext. unfold handle_toggle_forwarding. rewrite Hadmin.
  repeat (apply elem_of_cons in Htext as [->|Htext]; [done|]).
  by apply elem_of_nil in Htext.
Qed.

Lemma forwarding_requests_flip_switch_witness :
  FORWARDING_ENABLED
    (handle_toggle_forwarding
       (mkUpdate 5962096701 "private" 1 "/forwarding_off" 5962096701
                 "admin" None)
       (with_forwarding false sample.state)).1
  = true.
Proof.
  apply (forwarding_requests_flip_switch
           (mkUpdate 5962096701 "private" 1 "/forwarding_off" 5962096701
                     "admin" None)
           (with_forwarding false sample.state)).
  - vm_compute. reflexivity.
  - apply (bool_decide_unpack _). vm_compute. exact I.
Defined.





End reconciler_facts.

(** ** The intake and the release button *)

Section intake_facts.
Import bot.

Lemma fmap_eq_elem {A B} (f : A -> B) (l1 l2 : list A) x :
  f <$> l1 = f <$> l2 -> x ∈ l1 -> exists y, y ∈ l2 /\ f y = f x.
Proof.
  intros Heq Hin.
  assert (f x ∈ f <$> l2) as (y & Hy & Hin')%list_elem_of_fmap.
  { rewrite <- Heq. apply list_elem_of_fmap. by exists x. }
  by exists y.
Qed.

(** What the gated allocator returns when it returns: no image only if
    none is open, and then the table is as before; else an open image;
    and it writes nothing but queue positions. *)
Lemma gated_result depth : forall pcts rolls k rows gated rows1 k1,
  db.get_next_image_in_queue_with_percentage depth pcts rolls k rows
  = Some (gated, rows1, k1) ->
  (fun row => (db.rowid row, db.image_id row, db.number row,
               db.file_id row, db.status row, db.metadata row)) <$> rows1
  = (fun row => (db.rowid row, db.image_id row, db.number row,
                 db.file_id row, db.status row, db.metadata row)) <$> rows /\
  match gated with
  | None => db.open_rows rows = [] /\ rows1 = rows
  | Some img =>
    exists row, row ∈ db.open_rows rows /\ img = db.image_of_row row
  end.
Proof.
  induction depth as [|depth IH]; intros pcts rolls k rows gated rows1 k1;
    [done|].
  cbn [db.get_next_image_in_queue_with_percentage].
  pose proof (allocator_cases rows) as Hstep.
  destruct (db.get_next_image_in_queue rows) as [[img|] rows'].
  2:{ intros [= <- <- <-]. by destruct Hstep as [? ->]. }
  destruct Hstep as (next & Hnext & -> & Hrows' & Hcontent).
  assert (Hdirect :
            Some (Some (db.image_of_row next), rows', k)
            = Some (gated, rows1, k1) \/
            Some (Some (db.image_of_row next), rows', S k)
            = Some (gated, rows1, k1) ->
            (fun row => (db.rowid row, db.image_id row, db.number row,
                         db.file_id row, db.status row, db.metadata row))
              <$> rows1
            = (fun row => (db.rowid row, db.image_id row, db.number row,
                           db.file_id row, db.status row, db.metadata row))
                <$> rows /\
            match gated with
            | None => db.open_rows rows = [] /\ rows1 = rows
            | Some img =>
              exists row, row ∈ db.open_rows rows /\ img = db.image_of_row row
            end).
  { intros [[= <- <- <-]|[= <- <- <-]]; (split; [done|by exists next]). }
  destruct (decide (pcts = ∅)); [by auto|].
  destruct (default ∅ (db.img_metadata (db.image_of_row next))
              !! "source_group_b_id") as [[g|]|]; [|by auto..].
  destruct (pcts !! g) as [p|]; [|by auto].
  destruct (decide (rolls k <= p)); [by auto|].
  intros Hrec. apply IH in Hrec as [Hcontent1 Hgated].
  split; [by rewrite Hcontent1|].
  destruct gated as [img|].
  - destruct Hgated as (row & Hrow & ->).
    apply list_elem_of_filter in Hrow as [Hopen Hrow].
    destruct (fmap_eq_elem _ _ _ row Hcontent Hrow) as (row0 & Hrow0 & Heq).
    injection Heq as Hrowid Hid Hnumber Hfile Hstatus Hmd.
    exists row0. split.
    + apply list_elem_of_filter. split; [|done]. by rewrite Hstatus.
    + unfold db.image_of_row. congruence.
  - destruct Hgated as [Hnone _]. exfalso.
    apply list_elem_of_filter in Hnext as [Hopen Hnext].
    assert (db.set_queue_position (db.max_position rows + 1) next
              ∈ db.open_rows rows') as Hin.
    { apply list_elem_of_filter. split; [done|].
      rewrite Hrows'. apply list_elem_of_fmap. exists next.
      by rewrite decide_True. }
    rewrite Hnone in Hin. by apply elem_of_nil in Hin.
Qed.

(** What the room resolver returns for a metadata dictionary: no room
    only when no room is configured; else a configured room, and it
    writes nothing but the metadata of the image. *)
Lemma get_group_b_for_image_cases hash rooms id md rows target rows' :
  get_group_b_for_image hash rooms id (Some md) rows = (target, rows') ->
  (fun row => (db.rowid row, db.image_id row, db.number row,
               db.file_id row, db.status row)) <$> rows'
  = (fun row => (db.rowid row, db.image_id row, db.number row,
                 db.file_id row, db.status row)) <$> rows /\
  match target with
  | None => rooms = []
  | Some room => room ∈ rooms
  end.
Proof.
  assert (Hwrite : forall md',
            (fun row => (db.rowid row, db.image_id row, db.number row,
                         db.file_id row, db.status row))
              <$> db.update_image_metadata id md' rows
            = (fun row => (db.rowid row, db.image_id row, db.number row,
                           db.file_id row, db.status row)) <$> rows).
  { intros md'. unfold db.update_image_metadata.
    rewrite <- list_fmap_compose. apply list_fmap_ext. intros _ row _.
    simpl. by destruct (decide (db.image_id row = id)). }
  unfold get_group_b_for_image.
  assert (Hhash :
            match rooms with
            | [] => (None, rows)
            | _ :: _ =>
              match rooms !! Z.to_nat (Z.abs (hash id)
                                       mod Z.of_nat (length rooms)) with
              | Some target_group_b_id =>
                (Some target_group_b_id,
                 db.update_image_metadata id
                   (<["source_group_b_id" := db.MInt target_group_b_id]>
                      (default ∅ (Some md))) rows)
              | None => (None, rows)
              end
            end = (target, rows') ->
            (fun row => (db.rowid row, db.image_id row, db.number row,
                         db.file_id row, db.status row)) <$> rows'
            = (fun row => (db.rowid row, db.image_id row, db.number row,
                           db.file_id row, db.status row)) <$> rows /\
            match target with
            | None => rooms = []
            | Some room => room ∈ rooms
            end).
  { destruct rooms as [|room0 rooms0] eqn:Hrooms; [by intros [= <- <-]|].
    rewrite <- Hrooms.
    destruct (lookup_lt_is_Some_2 rooms
                (Z.to_nat (Z.abs (hash id) mod Z.of_nat (length rooms))))
      as [room Hroom].
    { assert (0 < Z.of_nat (length rooms)) by (rewrite Hrooms; simpl; lia).
      pose proof (Z.mod_pos_bound (Z.abs (hash id))
                    (Z.of_nat (length rooms))). lia. }
    rewrite Hroom. intros [= <- <-]. split; [apply Hwrite|].
    by eapply list_elem_of_lookup_2. }
  destruct (md !! "source_group_b_id") as [[g|]|]; [|done..].
  destruct (decide (g ∈ rooms)); [|done].
  by intros [= <- <-].
Qed.

Lemma with_images_same (s : State) : with_images (images s) s = s.
Proof. by destruct s. Qed.

(** Every way a call of the intake can end. *)
Lemma intake_outcomes config rt update s s1 out :
  handle_group_a_message config rt update s = Some (s1, out) ->
  (s1 = s /\ out = []) \/
  (images s <> [] /\ db.count_images_by_status (images s) = (0, 0)%nat /\
   s1 = s /\ out = [plain (reply_text "No open images available.")]) \/
  (exists amount row rows3,
     chat_id update ∈ GROUP_A_IDS config /\
     String.prefix "+" (strip (text update)) = false /\
     intake_amount (strip (text update)) = Some amount /\
     20 <= int_of_digits amount <= 5000 /\
     row ∈ db.open_rows (images s) /\
     (fun row => (db.rowid row, db.image_id row, db.number row,
                  db.file_id row, db.status row)) <$> rows3
     = (fun row => (db.rowid row, db.image_id row, db.number row,
                    db.file_id row, db.status row)) <$> images s /\
     let photo :=
       reply_photo (db.file_id row)
                   ("🌟 群: " +:+ str_Z (db.number row) +:+ " 🌟") in
     (GROUP_B_IDS config = [] /\ s1 = with_images rows3 s /\
      out = [photo;
             plain (reply_text "Error: No Group B configured. Please ask admin to set up Group B.")]
      \/
      exists room,
        room ∈ GROUP_B_IDS config /\
        (exists rows2,
           get_group_b_for_image (py_hash rt) (GROUP_B_IDS config)
             (db.image_id row) (Some (default ∅ (db.metadata row))) rows2
           = (Some room, rows3)) /\
        let is_click_mode :=
          default false (GROUP_B_CLICK_MODE config !! room) in
        let message_text :=
          forward_text is_click_mode amount (db.number row) in
        s1 = mkState
               (dict_set (db.image_id row)
                  (mkMsgData (photo_message_id rt) (chat_id update)
                     (forward_message_id rt) room (db.image_id row) amount
                     (str_Z (db.number row)) (user_id update)
                     (Some (message_id update)) is_click_mode)
                  (forwarded_msgs s))
               (group_b_responses s) (pending_custom_amounts s)
               (db.set_image_status (db.image_id row) "closed" rows3)
               (FORWARDING_ENABLED s) (GLOBAL_ADMINS s) (GROUP_ADMINS s) /\
        out = [photo;
               if is_click_mode then
                 send_with_button room message_text "解除"
                                  ("release_" +:+ db.image_id row)
               else plain (send_message room message_text None)])).
Proof.
  unfold handle_group_a_message.
  destruct (decide (chat_id update ∉ GROUP_A_IDS config)) as [?|Hchat];
    [left; by simplify_eq|].
  apply dec_stable in Hchat.
  destruct (String.prefix "+" (strip (text update))) eqn:Hplus;
    [left; by simplify_eq|].
  destruct (intake_amount (strip (text update))) as [amount|] eqn:Hamount;
    [|left; by simplify_eq].
  destruct (decide (int_of_digits amount < 20 \/ 5000 < int_of_digits amount))
    as [?|Hrange]; [left; by simplify_eq|].
  destruct (db.get_all_images (images s)) as [|image0 rest] eqn:Hall;
    [left; by simplify_eq|].
  assert (Hne : images s <> []).
  { intros Hnil. by rewrite Hnil in Hall. }
  unfold db.count_images_by_status.
  destruct (decide (_ /\ _)%nat) as [?|Hcount]; [left; by simplify_eq|].
  destruct (db.get_next_image_in_queue_with_percentage _ _ _ _ _)
    as [[[gated rows1] k1]|] eqn:Hgated; [|done].
  apply gated_result in Hgated as [Hcontent Hgated].
  destruct gated as [img|].
  - destruct Hgated as (row & Hrow & ->).
    destruct (get_group_b_for_image _ _ _ _ _) as [target rows3] eqn:Hroom.
    pose proof (get_group_b_for_image_cases _ _ _ _ _ _ _ Hroom)
      as [Hcontent3 Htarget].
    intros Hresult. right; right. exists amount, row, rows3.
    split_and!; [done|done|done|lia|lia|done| |].
    { rewrite Hcontent3.
      apply (f_equal (fmap (fun '(a, b, c, d, e, _) => (a, b, c, d, e))))
        in Hcontent.
      rewrite <- !list_fmap_compose in Hcontent. exact Hcontent. }
    destruct target as [room|].
    + right. exists room. split; [done|]. split; [by eexists|].
      rewrite decide_True in Hresult by done. by simplify_eq.
    + left. by simplify_eq.
  - destruct Hgated as [Hopen ->].
    pose proof (allocator_cases (images s)) as Hstep.
    destruct (db.get_next_image_in_queue (images s)) as [[img|] rows2].
    { destruct Hstep as (next & Hnext & _). rewrite Hopen in Hnext.
      by apply elem_of_nil in Hnext. }
    destruct Hstep as [_ ->]. rewrite with_images_same.
    intros [= <- <-]. right; left. split_and!; [done| |done..].
    fold (db.open_rows (images s)) in Hcount |- *. rewrite Hopen in Hcount |- *.
    simpl in *. f_equal.
    destruct (filter _ (images s)); [done|]. simpl in Hcount. exfalso.
    apply Hcount. split; [done|lia].
Qed.


(** The answers the intake never gives lightly.  It never answers that
    the room configuration is invalid.  It answers that no image is
    available only when the table is not empty and holds no open and no
    closed image -- with every image closed it stays silent -- and it
    answers that no room is configured only when none is.  Without an
    open image it changes nothing. *)
Theorem intake_error_replies config rt update s s1 out :
  handle_group_a_message config rt update s = Some (s1, out) ->
  (plain (reply_text "Error: Invalid Group B configuration.") ∉ out) /\
  (plain (reply_text "No open images available.") ∈ out ->
   images s <> [] /\ db.count_images_by_status (images s) = (0, 0)%nat) /\
  (plain (reply_text "Error: No Group B configured. Please ask admin to set up Group B.")
     ∈ out -> GROUP_B_IDS config = []) /\
  (db.open_rows (images s) = [] -> s1 = s).
Proof.
  intros Hresult.
  destruct (intake_outcomes config rt update s s1 out Hresult)
    as [[-> ->]|[(Hne & Hcount & -> & ->)
                |(amount & row & rows3 & _ & _ & _ & _ & Hrow
                  & _ & [(Hnone & _ & ->)|(room & Hroom & _ & _ & ->)])]].
  - split_and!; [intros Hin|intros Hin|intros Hin|done];
      by apply elem_of_nil in Hin.
  - split_and!; [| |intros Hin|done].
    + by intros Hin%list_elem_of_singleton.
    + done.
    + by apply list_elem_of_singleton in Hin.
  - split_and!.
    + intros Hin. repeat (apply elem_of_cons in Hin as [?|Hin]; [done|]).
      by apply elem_of_nil in Hin.
    + intros Hin. repeat (apply elem_of_cons in Hin as [?|Hin]; [done|]).
      by apply elem_of_nil in Hin.
    + done.
    + intros Hopen. rewrite Hopen in Hrow. by apply elem_of_nil in Hrow.
  - split_and!.
    + intros Hin.
      repeat (apply elem_of_cons in Hin as [Heq|Hin];
              [by destruct (default false _)|]).
      by apply elem_of_nil in Hin.
    + intros Hin.
      repeat (apply elem_of_cons in Hin as [Heq|Hin];
              [by destruct (default false _)|]).
      by apply elem_of_nil in Hin.
    + intros Hin.
      repeat (apply elem_of_cons in Hin as [Heq|Hin];
              [by destruct (default false _)|]).
      by apply elem_of_nil in Hin.
    + intros Hopen. rewrite Hopen in Hrow. by apply elem_of_nil in Hrow.
Qed.

Lemma intake_error_replies_witness :
  plain (reply_text "Error: Invalid Group B configuration.")
    ∉ [reply_photo "f1" "🌟 群: 10 🌟";
       plain (send_message (-2001)
                (forward_text false "25" 10) None)].
Proof.
  refine (proj1 (intake_error_replies sample.config sample.runtime
                   sample.request sample.intake_state _ _ _)).
  vm_compute. reflexivity.
Defined.












End intake_facts.

(** ** Promotion, percentages and the registration of images *)

Section admin_facts.
Import bot.



(** The percentage command keeps every stored percentage between 0 and
    100 and sets percentages of registered rooms only; a sender who is
    not a global admin changes nothing. *)
Theorem percentages_stay_in_range args user config s :
  map_Forall (fun _ p => 0 <= p <= 100) (group_b_percentages config) ->
  let config' := (handle_set_group_b_percentage args user config s).1 in
  map_Forall (fun _ p => 0 <= p <= 100) (group_b_percentages config') /\
  (forall room, room ∉ GROUP_B_IDS config ->
     group_b_percentages config' !! room
     = group_b_percentages config !! room) /\
  (is_global_admin user s = false -> config' = config) /\
  GROUP_A_IDS config' = GROUP_A_IDS config /\
  GROUP_B_IDS config' = GROUP_B_IDS config /\
  GROUP_B_CLICK_MODE config' = GROUP_B_CLICK_MODE config.
Proof.
  intros Hrange config'. unfold config', handle_set_group_b_percentage.
  destruct (is_global_admin user s); simpl; [|done].
  destruct args as [|[g|] [|[p|] [|? ?]]]; try done.
  destruct (decide (p < 0 \/ 100 < p)); [done|].
  destruct (decide (g ∉ GROUP_B_IDS config)) as [|Hroom]; [done|].
  simpl. split_and!; [|intros room Hother|done..].
  - apply map_Forall_insert_2; [lia|done].
  - rewrite lookup_insert_ne; [done|]. intros ->. by apply Hroom.
Qed.

Lemma percentages_stay_in_range_witness :
  map_Forall (fun _ p => 0 <= p <= 100)
    (group_b_percentages
       (handle_set_group_b_percentage [Some (-2001); Some 75] 5962096701
          sample.config sample.state).1).
Proof.
  refine (proj1 (percentages_stay_in_range [Some (-2001); Some 75]
                   5962096701 sample.config sample.state _)).
  apply map_Forall_empty.
Defined.

(** While every open image belongs to a room whose percentage every
    draw exceeds, the gated allocation uses up any nesting depth. *)
Lemma gated_never_returns depth : forall pcts rolls k rows,
  db.open_rows rows <> [] ->
  (forall row, row ∈ db.open_rows rows ->
     exists g p,
       default ∅ (db.metadata row) !! "source_group_b_id"
       = Some (db.MInt g) /\
       pcts !! g = Some p /\ forall j, p < rolls j) ->
  db.get_next_image_in_queue_with_percentage depth pcts rolls k rows = None.
Proof.
  induction depth as [|depth IH]; intros pcts rolls k rows Hopen Hall;
    [done|].
  cbn [db.get_next_image_in_queue_with_percentage].
  pose proof (allocator_cases rows) as Hstep.
  destruct (db.get_next_image_in_queue rows) as [[img|] rows'];
    [|by destruct Hstep].
  destruct Hstep as (next & Hnext & -> & Hrows' & _).
  destruct (Hall next Hnext) as (g & p & Hg & Hp & Hrolls).
  rewrite decide_False by (intros ->; by rewrite lookup_empty in Hp).
  change (db.img_metadata (db.image_of_row next)) with (db.metadata next).
  rewrite Hg, Hp.
  rewrite decide_False by (specialize (Hrolls k); lia).
  assert (Hopen' : forall row, row ∈ db.open_rows rows' ->
            exists row0, row0 ∈ db.open_rows rows /\
                         db.metadata row = db.metadata row0).
  { intros row. rewrite Hrows', update_queue_position_open.
    intros (row0 & -> & Hrow0)%list_elem_of_fmap. exists row0.
    split; [done|]. by destruct (decide _). }
  apply IH.
  - rewrite Hrows', update_queue_position_open.
    destruct (db.open_rows rows); [done|]. done.
  - intros row (row0 & Hrow0 & ->)%Hopen'. by apply Hall.
Qed.

(** The percentage command accepts 0, and a percentage of 0 does not
    make the gated allocation skip the room: while every open image
    belongs to that room, the allocation retries until the recursion
    limit, whatever the limit and the draws. *)
Theorem zero_percentage_never_returns user config s room depth rolls k rows :
  is_global_admin user s = true ->
  room ∈ GROUP_B_IDS config ->
  (forall j, 1 <= rolls j) ->
  db.open_rows rows <> [] ->
  (forall row, row ∈ db.open_rows rows ->
     default ∅ (db.metadata row) !! "source_group_b_id"
     = Some (db.MInt room)) ->
  let config' :=
    (handle_set_group_b_percentage [Some room; Some 0] user config s).1 in
  group_b_percentages config' !! room = Some 0 /\
  db.get_next_image_in_queue_with_percentage
    depth (group_b_percentages config') rolls k rows = None.
Proof.
  intros Hadmin Hroom Hrolls Hopen Hall config'.
  assert (Hset : group_b_percentages config' !! room = Some 0).
  { unfold config', handle_set_group_b_percentage. rewrite Hadmin.
    cbn [negb]. destruct (decide (0 < 0 \/ 100 < 0)); [lia|].
    rewrite decide_False by (intros Hn; by apply Hn).
    simpl. by rewrite lookup_insert_eq. }
  split; [done|]. apply gated_never_returns; [done|].
  intros row Hrow. exists room, 0. split_and!; [by apply Hall|done|].
  intros j. specialize (Hrolls j). lia.
Qed.

Lemma zero_percentage_never_returns_witness :
  db.get_next_image_in_queue_with_percentage
    100
    (group_b_percentages
       (handle_set_group_b_percentage [Some (-2001); Some 0] 5962096701
          sample.config sample.state).1)
    sample.rolls_60_40 0 [sample.gated_row 0]
  = None.
Proof.
  refine (proj2 (zero_percentage_never_returns 5962096701 sample.config
                   sample.state (-2001) 100 sample.rolls_60_40 0
                   [sample.gated_row 0] _ _ _ _ _)).
  - vm_compute. reflexivity.
  - vm_compute. left.
  - intros [|j]; simpl; lia.
  - vm_compute. discriminate.
  - intros row Hrow. vm_compute in Hrow.
    apply list_elem_of_singleton in Hrow as ->. vm_compute. reflexivity.
Defined.

Lemma decimal_value_nonneg char : 0 <= default 0 (decimal_value char).
Proof.
  unfold decimal_value.
  destruct (filter _ decimal_zeros) as [|zero rest] eqn:Hzeros; [done|].
  assert (zero ∈ filter (fun zero => zero <= code_point char <= zero + 9)
                        decimal_zeros) as [Hzero _]%list_elem_of_filter
    by (rewrite Hzeros; left).
  simpl. lia.
Qed.

Lemma fold_digits_nonneg (characters : list string) : forall acc,
  0 <= acc ->
  0 <= fold_left (fun acc char => 10 * acc + default 0 (decimal_value char))
                 characters acc.
Proof.
  induction characters as [|char characters IH]; intros acc Hacc; [done|].
  simpl. apply IH. pose proof (decimal_value_nonneg char). lia.
Qed.

Lemma int_of_digits_nonneg s : 0 <= int_of_digits s.
Proof. by apply fold_digits_nonneg. Qed.



(** A registration that passes the checks on the sender and the
    message. *)
Lemma registration_step config seconds first_group_a update s file label :
  photo_chat_id update ∈ GROUP_B_IDS config ->
  is_group_admin (photo_user_id update) (photo_chat_id update) s
    || is_global_admin (photo_user_id update) s = true ->
  photo update = Some file ->
  search_set_group (default EmptyString (caption update)) = Some label ->
  handle_set_group_image config seconds first_group_a update s
  = if decide (GROUP_A_IDS config = ∅) then None
    else
      let '(success, rows) :=
        db.add_image ("img_" +:+ str_Z seconds) (int_of_digits label) file
          "open"
          (Some ({[ "source_group_b_id" := db.MInt (photo_chat_id update);
                    "target_group_a_id" := db.MInt first_group_a ]}
                 : db.Metadata))
          (images s) in
      if success then
        Some (with_images rows s,
              [reply_text ("✅ 已设置群聊为" +:+ label +:+ "群")])
      else
        Some (s, [reply_text "设置图片失败，该图片可能已存在。请重试。"]).
Proof.
  intros Hroom Hadmin Hphoto Hcaption. unfold handle_set_group_image.
  rewrite decide_False by (intros Hn; by apply Hn).
  rewrite <- negb_orb, Hadmin, Hphoto, Hcaption. done.
Qed.


(** What the registration of an image does once the sender and the
    message pass the checks (a fulfillment room, one of its
    administrators, a photo, a caption with the number).  Without a
    source room configured the handler raises and stores nothing.
    Otherwise an image whose id is stored -- the id is the clock's
    second -- or whose number does not fit an SQLite integer is refused
    and the table stays as it is; else one row is appended, open, with
    the number of the caption, the photo, and the room as its source
    room. *)
Theorem image_registration_spec config seconds first_group_a update s
    file label :
  photo_chat_id update ∈ GROUP_B_IDS config ->
  is_group_admin (photo_user_id update) (photo_chat_id update) s
    || is_global_admin (photo_user_id update) s = true ->
  photo update = Some file ->
  search_set_group (default EmptyString (caption update)) = Some label ->
  let result :=
    handle_set_group_image config seconds first_group_a update s in
  let id := "img_" +:+ str_Z seconds in
  (GROUP_A_IDS config = ∅ -> result = None) /\
  (GROUP_A_IDS config <> ∅ ->
   (is_Some (db.get_image_by_id id (images s)) \/
    9223372036854775808 <= int_of_digits label ->
    result
    = Some (s, [reply_text "设置图片失败，该图片可能已存在。请重试。"])) /\
   (db.get_image_by_id id (images s) = None ->
    int_of_digits label < 9223372036854775808 ->
    exists row,
      result = Some (with_images (images s ++ [row]) s,
                     [reply_text ("✅ 已设置群聊为" +:+ label +:+ "群")]) /\
      db.image_id row = id /\ db.number row = int_of_digits label /\
      db.file_id row = file /\ db.status row = "open" /\
      db.belongs_to (photo_chat_id update) row)).
Proof.
  intros Hroom Hadmin Hphoto Hcaption result id.
  unfold result.
  rewrite (registration_step config seconds first_group_a update s file
             label) by done.
  split; [intros Hnone; by rewrite decide_True|].
  intros Hsome. rewrite decide_False by done.
  unfold db.add_image, db.get_image_by_id. fold id.
  pose proof (int_of_digits_nonneg label) as Hnonneg.
  split.
  - intros [[image Himage]|Hlarge].
    + by destruct (list_find _ (images s)) as [[i row]|].
    + destruct (list_find _ (images s)) as [[i row]|]; [done|].
      by rewrite decide_False by lia.
  - intros Hfresh Hfits.
    destruct (list_find _ (images s)) as [[i row]|]; [done|].
    rewrite decide_True by lia.
    eexists. split; [reflexivity|]. by split_and!.
Qed.

Lemma image_registration_spec_witness :
  handle_set_group_image (mkConfig ∅ [-2001] ∅ ∅) 1700000000 (-1001)
    sample.registration sample.empty_state
  = None.
Proof.
  refine (proj1 (image_registration_spec (mkConfig ∅ [-2001] ∅ ∅)
                   1700000000 (-1001) sample.registration
                   sample.empty_state "file_12" "12" _ _ _ _) _).
  - vm_compute. left.
  - vm_compute. reflexivity.
  - reflexivity.
  - vm_compute. reflexivity.
  - reflexivity.
Defined.

(** Two registrations in the same second: once a registration has
    stored an image, every registration in the same second that passes
    the checks on the sender and the message -- from whatever room, with
    whatever number -- is refused and leaves the state as it is. *)
Theorem same_second_registration_refused config seconds first1 update1 s
    s1 out1 first2 update2 file label :
  handle_set_group_image config seconds first1 update1 s = Some (s1, out1) ->
  images s1 <> images s ->
  photo_chat_id update2 ∈ GROUP_B_IDS config ->
  is_group_admin (photo_user_id update2) (photo_chat_id update2) s1
    || is_global_admin (photo_user_id update2) s1 = true ->
  photo update2 = Some file ->
  search_set_group (default EmptyString (caption update2)) = Some label ->
  handle_set_group_image config seconds first2 update2 s1
  = Some (s1, [reply_text "设置图片失败，该图片可能已存在。请重试。"]).
Proof.
  intros Hfirst Hstored Hroom Hadmin Hphoto Hcaption.
  assert (Hsource : GROUP_A_IDS config <> ∅ /\
                    is_Some (list_find
                               (fun row => db.image_id row
                                           = "img_" +:+ str_Z seconds)
                               (images s1))).
  { unfold handle_set_group_image in Hfirst.
    destruct (decide (photo_chat_id update1 ∉ _));
      [by simplify_eq|].
    destruct (negb _ && negb _); [by simplify_eq|].
    destruct (photo update1); [|by simplify_eq].
    destruct (search_set_group _); [|by simplify_eq].
    destruct (decide (GROUP_A_IDS config = ∅)); [done|].
    split; [done|].
    unfold db.add_image in Hfirst.
    destruct (list_find _ (images s)) as [[i row]|]; [by simplify_eq|].
    destruct (decide (_ <= _ < _)); [|by simplify_eq].
    simplify_eq. simpl.
    match goal with
    | |- is_Some (list_find ?P (_ ++ [?row])) =>
      destruct (list_find_elem_of P (images s ++ [row]) row)
        as [[j found] ->];
        [apply elem_of_app; right; left|done|by eexists]
    end. }
  destruct Hsource as [Hsource [[j found] Hfound]].
  rewrite (registration_step config seconds first2 update2 s1 file label)
    by done.
  rewrite decide_False by done.
  unfold db.add_image. by rewrite Hfound.
Qed.

Lemma same_second_registration_refused_witness :
  handle_set_group_image sample.config 1700000000 (-1001)
    (mkPhotoUpdate (-2001) 5962096701 (Some "file_13") (Some "设置群 13"))
    (with_images
       [db.mkRow 1 "img_1700000000" 12 "file_12" "open"
          (Some ({[ "source_group_b_id" := db.MInt (-2001);
                    "target_group_a_id" := db.MInt (-1001) ]}
                 : db.Metadata))
          (Some 0)]
       sample.empty_state)
  = Some (with_images
            [db.mkRow 1 "img_1700000000" 12 "file_12" "open"
               (Some ({[ "source_group_b_id" := db.MInt (-2001);
                         "target_group_a_id" := db.MInt (-1001) ]}
                      : db.Metadata))
               (Some 0)]
            sample.empty_state,
          [reply_text "设置图片失败，该图片可能已存在。请重试。"]).
Proof.
  apply (same_second_registration_refused sample.config 1700000000 (-1001)
           sample.registration sample.empty_state _
           [reply_text "✅ 已设置群聊为12群"] (-1001)
           (mkPhotoUpdate (-2001) 5962096701 (Some "file_13")
                          (Some "设置群 13"))
           "file_13" "13").
  - vm_compute. reflexivity.
  - vm_compute. discriminate.
  - vm_compute. left.
  - vm_compute. reflexivity.
  - reflexivity.
  - vm_compute. reflexivity.
Defined.



End admin_facts.
